(** * psrsigsim/pulsar/portraits.py: pulse portraits

    A shallow embedding of the module [portraits.py] and the properties of
    its classes [PulsePortrait], [GaussPortrait] (the 1-D sum of Gaussian
    components), [GaussPortrait] (the 2-D declaration that follows it) and
    [UserPortrait].

    Conventions of the embedding.
    - A Python method is a computation [M A] over the [world]: the instance
      it is called on together with the warnings sent to the logger.  It
      ends in a value or in a raised exception, and keeps the world it
      reached in both cases.
    - float64 values are real numbers: [exp] is the real exponential and
      the four operations are those of [R].  NaN, infinities, rounding and
      division by zero are outside the model.
    - NumPy arrays have rank 0, 1 or 2; [binop] is NumPy's broadcasting of
      an elementwise operation over two such arrays. *)

From stdpp Require Import base option list strings gmap.
From Stdlib Require Import Reals Lra.

(** ** Exceptions and outcomes *)

Inductive exn :=
| AttributeError
| TypeError
| ValueError
| UnboundLocalError
| NotImplementedError.

#[global] Instance exn_eq_dec : EqDecision exn.
Proof. solve_decision. Defined.

Inductive outcome (A : Type) :=
| Ok (a : A)
| Raise (e : exn).
Arguments Ok {A} a.
Arguments Raise {A} e.

#[global] Instance outcome_ret : MRet outcome := fun A a => Ok a.
#[global] Instance outcome_bind : MBind outcome := fun A B f m =>
  match m with
  | Ok a => f a
  | Raise e => Raise e
  end.

(** ** The NumPy fragment *)

(** A rank-2 array: [ncols] is kept beside the rows so that the shape
    [(0, c)] is not lost. *)
Record mat := Mat { ncols : nat; rows : list (list R) }.

Definition nrows (m : mat) : nat := length (rows m).

Inductive ndarray :=
| Arr0 (x : R)
| Arr1 (l : list R)
| Arr2 (m : mat).

Definition ndim (a : ndarray) : nat :=
  match a with
  | Arr0 _ => 0
  | Arr1 _ => 1
  | Arr2 _ => 2
  end.

Definition shape (a : ndarray) : list nat :=
  match a with
  | Arr0 _ => []
  | Arr1 l => [length l]
  | Arr2 m => [nrows m; ncols m]
  end.

(** Broadcasting aligns shapes on their last axis: a rank-1 array of
    length [n] behaves as a [(1, n)] matrix and a rank-0 array as [(1, 1)]. *)
Definition as_mat (a : ndarray) : mat :=
  match a with
  | Arr0 x => Mat 1 [[x]]
  | Arr1 l => Mat (length l) [l]
  | Arr2 m => m
  end.

(** The length of the broadcast of two axes, when they are compatible. *)
Definition bdim (a b : nat) : option nat :=
  if decide (a = b) then Some a
  else if decide (a = 1) then Some b
  else if decide (b = 1) then Some a
  else None.

(** The index read along an axis of length [n]: an axis of length 1 is
    stretched. *)
Definition pick (n i : nat) : nat := if decide (n = 1) then 0 else i.

Definition mget (m : mat) (i j : nat) : R :=
  nth (pick (ncols m) j) (nth (pick (nrows m) i) (rows m) []) 0%R.

Definition build (r c : nat) (g : nat -> nat -> R) : mat :=
  Mat c (map (fun i => map (g i) (seq 0 c)) (seq 0 r)).

Definition of_mat (rank : nat) (m : mat) : ndarray :=
  match rank with
  | 0 => Arr0 (mget m 0 0)
  | 1 => Arr1 (nth 0 (rows m) [])
  | _ => Arr2 m
  end.

(** [a op b] for two arrays: [ValueError] when the shapes cannot be
    broadcast together. *)
Definition binop (f : R -> R -> R) (a b : ndarray) : outcome ndarray :=
  let A := as_mat a in
  let B := as_mat b in
  match bdim (nrows A) (nrows B), bdim (ncols A) (ncols B) with
  | Some r, Some c =>
      Ok (of_mat (Nat.max (ndim a) (ndim b))
            (build r c (fun i j => f (mget A i j) (mget B i j))))
  | _, _ => Raise ValueError
  end.

(** An elementwise function, or an operation with a scalar operand. *)
Definition nd_map (f : R -> R) (a : ndarray) : ndarray :=
  match a with
  | Arr0 x => Arr0 (f x)
  | Arr1 l => Arr1 (map f l)
  | Arr2 m => Arr2 (Mat (ncols m) (map (map f) (rows m)))
  end.

(** [a op= b]: the result has to fit the shape of [a]. *)
Definition inplace (f : R -> R -> R) (a b : ndarray) : outcome ndarray :=
  r ← binop f a b;
  if decide (shape r = shape a) then Ok r else Raise ValueError.

Definition elements (a : ndarray) : list R := concat (rows (as_mat a)).

(** [np.amax(a)] and [a.max()]: the largest element over all axes;
    [ValueError] on an array without elements. *)
Definition amax (a : ndarray) : outcome R :=
  match elements a with
  | [] => Raise ValueError
  | x :: xs => Ok (fold_left Rmax xs x)
  end.

(** [np.array(phases)] on a sequence of numbers (a list, a tuple or a
    rank-1 array, given by its elements). *)
Definition np_array (phases : list R) : ndarray := Arr1 phases.

(** [np.arange(n)] for an integer [n], a rank-1 array given by its
    elements: empty when [n <= 0]. *)
Definition arange (n : Z) : list R :=
  map (fun k => IZR (Z.of_nat k)) (seq 0 (Z.to_nat n)).

(** ** Python values *)

(** What the constructor of the 1-D portrait is given for [peak], [width]
    and [amp]: a Python number, a Python list of numbers, or a rank-1
    NumPy array. *)
Inductive param :=
| PNum (x : R)
| PList (l : list R)
| PArr (l : list R).

Inductive value :=
| VNone
| VParam (p : param)
| VFloat (x : R)
| VArray (a : ndarray).

(** [p[:, np.newaxis]]: numbers and lists cannot be subscripted by a
    tuple. *)
Definition colon_newaxis (p : param) : outcome ndarray :=
  match p with
  | PNum _ => Raise TypeError
  | PList _ => Raise TypeError
  | PArr l => Ok (Arr2 (Mat 1 (map (fun x => [x]) l)))
  end.

(** [ph[np.newaxis, :]] on a rank-1 array. *)
Definition newaxis_colon (ph : list R) : ndarray := Arr2 (Mat (length ph) [ph]).

(** A parameter as the operand of an arithmetic operation with an array. *)
Definition operand (p : param) : ndarray :=
  match p with
  | PNum x => Arr0 x
  | PList l => Arr1 l
  | PArr l => Arr1 l
  end.

(** ** Objects, classes and attribute lookup *)

Inductive class :=
| PulsePortrait_cls
| GaussPortrait_cls.

(** An instance: its class and its instance attributes, each absent until
    a method assigns it.  [_peak], [_width] and [_amp] are assigned by
    [GaussPortrait.__init__], [_profile] and [_Amax] by [init_profile]. *)
Record object := Object {
  ob_type : class;
  _peak : option param;
  _width : option param;
  _amp : option param;
  _profile : option ndarray;
  _Amax : option R
}.

(** The instance together with the messages logged at warning level. *)
Record world := World {
  self : object;
  warnings : list string
}.

Definition M (A : Type) : Type := world -> outcome A * world.

#[global] Instance M_ret : MRet M := fun A a w => (Ok a, w).
#[global] Instance M_bind : MBind M := fun A B f m w =>
  match m w with
  | (Ok a, w') => f a w'
  | (Raise e, w') => (Raise e, w')
  end.

Definition raise {A : Type} (e : exn) : M A := fun w => (Raise e, w).

Definition lift {A : Type} (o : outcome A) : M A := fun w => (o, w).

(** [try: body  except e: handler] *)
Definition try_except {A : Type} (body : M A) (e : exn) (handler : M A) : M A :=
  fun w =>
    match body w with
    | (Ok a, w') => (Ok a, w')
    | (Raise e', w') => if decide (e' = e) then handler w' else (Raise e', w')
    end.

(** Reading a local variable: [UnboundLocalError] while it has no
    binding. *)
Definition load_local {A : Type} (binding : option A) : M A :=
  match binding with
  | Some a => mret a
  | None => raise UnboundLocalError
  end.

(** [log.warning(msg)] *)
Definition log_warning (msg : string) : M unit :=
  fun w => (Ok tt, World (self w) (warnings w ++ [msg])).

(** [vars(self)]: the instance dictionary. *)
Definition bind_attr (name : string) (v : option value)
    (d : gmap string value) : gmap string value :=
  match v with
  | Some x => <[name := x]> d
  | None => d
  end.

Definition vars (o : object) : gmap string value :=
  bind_attr "_peak" (VParam <$> _peak o)
    (bind_attr "_width" (VParam <$> _width o)
       (bind_attr "_amp" (VParam <$> _amp o)
          (bind_attr "_profile" (VArray <$> _profile o)
             (bind_attr "_Amax" (VFloat <$> _Amax o) ∅)))).

(** The data attributes bound in each class body: [PulsePortrait] has the
    one line [_profile = None]; the 1-D [GaussPortrait] binds methods and
    properties only. *)
Definition class_data (c : class) : gmap string value :=
  match c with
  | PulsePortrait_cls => {[ "_profile" := VNone ]}
  | GaussPortrait_cls => ∅
  end.

(** The method resolution order, [object] left out. *)
Definition mro (c : class) : list class :=
  match c with
  | PulsePortrait_cls => [PulsePortrait_cls]
  | GaussPortrait_cls => [GaussPortrait_cls; PulsePortrait_cls]
  end.

(** The first binding of [name] along the classes [cs]. *)
Fixpoint class_lookup {V : Type} (dict : class -> gmap string V)
    (cs : list class) (name : string) : option V :=
  match cs with
  | [] => None
  | c :: cs' =>
      match dict c !! name with
      | Some v => Some v
      | None => class_lookup dict cs' name
      end
  end.

(** [self.<name>] for a data attribute: the instance dictionary, then the
    classes of the MRO, else [AttributeError]. *)
Definition getattr (name : string) : M value :=
  fun w =>
    match vars (self w) !! name with
    | Some v => (Ok v, w)
    | None =>
        match class_lookup class_data (mro (ob_type (self w))) name with
        | Some v => (Ok v, w)
        | None => (Raise AttributeError, w)
        end
    end.

(** [hasattr(self, name)] *)
Definition hasattr (name : string) : M bool :=
  fun w =>
    match getattr name w with
    | (Ok _, w') => (Ok true, w')
    | (Raise _, w') => (Ok false, w')
    end.

(** [self.<field>] for an instance attribute without a class-level
    default. *)
Definition read {A : Type} (field : object -> option A) : M A :=
  fun w =>
    match field (self w) with
    | Some a => (Ok a, w)
    | None => (Raise AttributeError, w)
    end.

(** [self._profile]: the instance attribute, else the class-level [None]. *)
Definition read_profile : M (option ndarray) :=
  fun w => (Ok (_profile (self w)), w).

(** [p.max()] and [p /= x] on what [self._profile] holds. *)
Definition max_method (p : option ndarray) : M R :=
  match p with
  | Some a => lift (amax a)
  | None => raise AttributeError
  end.

Definition itruediv (p : option ndarray) (x : R) : M ndarray :=
  match p with
  | Some a => mret (nd_map (fun v => (v / x)%R) a)
  | None => raise TypeError
  end.

(** The properties declared by each class, and the access to one. *)
Definition class_properties (c : class) : list string :=
  match c with
  | PulsePortrait_cls => []
  | GaussPortrait_cls => ["profile"; "peak"; "width"; "amp"; "Amax"]
  end.

Definition property {A : Type} (name : string) (fget : M A) : M A :=
  fun w =>
    if decide (Exists (fun c => name ∈ class_properties c)
                 (mro (ob_type (self w))))
    then fget w
    else (Raise AttributeError, w).

(** [self._profile = a] and [self._Amax = x] *)
Definition set_profile (a : ndarray) : M unit :=
  fun w =>
    let o := self w in
    (Ok tt, World (Object (ob_type o) (_peak o) (_width o) (_amp o)
                     (Some a) (_Amax o)) (warnings w)).

Definition set_Amax (x : R) : M unit :=
  fun w =>
    let o := self w in
    (Ok tt, World (Object (ob_type o) (_peak o) (_width o) (_amp o)
                     (_profile o) (Some x)) (warnings w)).

(** ** class PulsePortrait *)

(** [PulsePortrait()]: the class has no [__init__] of its own. *)
Definition PulsePortrait_new : object :=
  Object PulsePortrait_cls None None None None None.

(** [PulsePortrait.calc_portrait(self, phases)] *)
Definition calc_portrait (phases : list R) : M ndarray :=
  raise NotImplementedError.

(** ** class GaussPortrait(PulsePortrait): the 1-D sum of Gaussians *)

(** [GaussPortrait.__init__(self, peak, width, amp)] *)
Definition GaussPortrait__init__ (peak width amp : param) : M unit :=
  fun w =>
    let o := self w in
    (Ok tt, World (Object (ob_type o) (Some peak) (Some width) (Some amp)
                     (_profile o) (_Amax o)) (warnings w)).

(** The properties. *)
Definition profile : M (option ndarray) := property "profile" read_profile.
Definition peak : M param := property "peak" (read _peak).
Definition width : M param := property "width" (read _width).
Definition amp : M param := property "amp" (read _amp).
Definition Amax : M R := property "Amax" (read _Amax).

(** The right operand of [profile += ...] in the handler:
    [self.amp * np.exp(-0.5 * ((ph - self.peak) / self.width) ** 2)]. *)
Definition single_component (ph : ndarray) : M ndarray :=
  a ← amp;
  p ← peak;
  d ← lift (binop Rminus ph (operand p));
  w ← width;
  q ← lift (binop Rdiv d (operand w));
  lift (binop Rmult (operand a)
          (nd_map exp (nd_map (Rmult (-0.5)) (nd_map (fun x => x ^ 2)%R q)))).

(** The expression of the [try] body:
    [self.amp[:, np.newaxis] * np.exp(-0.5 * ((ph[np.newaxis, :]
       - self.peak[:, np.newaxis]) / self.width[:, np.newaxis]) ** 2)],
    its operands evaluated from left to right. *)
Definition components (ph : list R) : M ndarray :=
  a ← amp;
  a' ← lift (colon_newaxis a);
  p ← peak;
  p' ← lift (colon_newaxis p);
  d ← lift (binop Rminus (newaxis_colon ph) p');
  w ← width;
  w' ← lift (colon_newaxis w);
  q ← lift (binop Rdiv d w');
  lift (binop Rmult a'
          (nd_map exp (nd_map (Rmult (-0.5)) (nd_map (fun x => x ^ 2)%R q)))).

(** [GaussPortrait.calc_profile(self, phases)].  The local [profile] has
    no binding before the [try]; when the body raises, its assignment has
    not run, and the handler's [profile += ...] reads [profile] first. *)
Definition calc_profile (phases : list R) : M ndarray :=
  let ph := np_array phases in
  let profile0 : option ndarray := None in
  profile ← try_except
    (components phases)
    TypeError
    (old ← load_local profile0;
     rhs ← single_component ph;
     lift (inplace Rplus old rhs));
  has ← hasattr "_Amax";
  A ← (if has : bool then Amax else lift (amax profile));
  mret (nd_map (fun v => (v / A)%R) profile).

(** ** Method lookup *)

(** The methods of one array argument bound in each class body. *)
Definition class_methods (c : class) : gmap string (list R -> M ndarray) :=
  match c with
  | PulsePortrait_cls => {[ "calc_portrait" := calc_portrait ]}
  | GaussPortrait_cls => {[ "calc_profile" := calc_profile ]}
  end.

(** [self.<name>(phases)] *)
Definition call_method (name : string) (phases : list R) : M ndarray :=
  fun w =>
    match class_lookup class_methods (mro (ob_type (self w))) name with
    | Some f => f phases w
    | None => (Raise AttributeError, w)
    end.

(** [PulsePortrait.__call__(self, phases=None)] *)
Definition __call__ (phases : option (list R)) : M value :=
  match phases with
  | None =>
      p ← getattr "_portrait";
      (match p with
       | VNone => log_warning "Base profile not generated, returning `None`"
       | _ => mret tt
       end);;
      getattr "_portrait"
  | Some ph =>
      a ← call_method "calc_portrait" ph;
      mret (VArray a)
  end.

(** [np.arange(Nphase) / Nphase], the canonical grid
    [phase[i] = i / Nphase]. *)
Definition grid (Nphase : Z) : list R :=
  map (fun x => (x / IZR Nphase)%R) (arange Nphase).

(** [GaussPortrait.init_profile(self, Nphase)] *)
Definition init_profile (Nphase : Z) : M unit :=
  let ph := grid Nphase in
  a ← call_method "calc_profile" ph;
  set_profile a;;
  p ← read_profile;
  m ← max_method p;
  set_Amax m;;
  p' ← read_profile;
  A ← Amax;
  a' ← itruediv p' A;
  set_profile a'.

(** [GaussPortrait(peak=0.5, width=0.05, amp=1)]: a fresh instance on
    which [__init__] has run; an argument left out takes its default. *)
Definition GaussPortrait_new (peak width amp : option param) : object :=
  let blank := Object GaussPortrait_cls None None None None None in
  self (snd (GaussPortrait__init__
               (default (PNum 0.5) peak)
               (default (PNum 0.05) width)
               (default (PNum 1) amp)
               (World blank []))).

(** ** The 2-D [GaussPortrait(PulseProfile)] and [UserPortrait(PulseProfile)] *)

(** Both derive from [PulseProfile], a class of another module: the
    instance under construction is a state [S] of whatever kind. *)

(** [GaussPortrait.__init__(self, peak, width, amp, Nphase, freqs)] of the
    second class of that name. *)
Definition GaussPortrait2D__init__ {S : Type}
    (peak width amp Nphase freqs : value) : S -> outcome unit * S :=
  fun s => (Raise NotImplementedError, s).

(** [UserPortrait.__init__(self)] *)
Definition UserPortrait__init__ {S : Type} : S -> outcome unit * S :=
  fun s => (Raise NotImplementedError, s).

(** [Cls(args)]: [__init__] runs on the blank instance, which is the value
    of the call when [__init__] returns. *)
Definition construct {S : Type} (init : S -> outcome unit * S) (blank : S)
    : outcome S :=
  match init blank with
  | (Ok _, s) => Ok s
  | (Raise e, _) => Raise e
  end.

(** ** The module namespace *)

(** What a class statement of the module binds its name to. *)
Inductive classdef :=
| PulsePortrait_def
| GaussPortrait_1D_def
| GaussPortrait_2D_def
| UserPortrait_def.

(** The class statements of the module, executed in order. *)
Definition module_namespace : gmap string classdef :=
  <[ "UserPortrait" := UserPortrait_def ]>
    (<[ "GaussPortrait" := GaussPortrait_2D_def ]>
       (<[ "GaussPortrait" := GaussPortrait_1D_def ]>
          (<[ "PulsePortrait" := PulsePortrait_def ]> ∅))).

(** ** Notions of the properties *)

(** A computation that leaves the world as it is. *)
Definition read_only {A : Type} (m : M A) : Prop := forall w, snd (m w) = w.

(** An instance of the 1-D class with its five attributes. *)
Definition gauss (pk wd am : param) (pr : option ndarray) (ax : option R)
    : object :=
  Object GaussPortrait_cls (Some pk) (Some wd) (Some am) pr ax.

(** One Gaussian component at one phase. *)
Definition gaussian (a p w x : R) : R :=
  (a * exp (-0.5 * ((x - p) / w) ^ 2))%R.

(** One row per component and one column per phase: entry [(i, j)] is
    component [i] at phase [j]. *)
Definition component_matrix (am pk wd ph : list R) : ndarray :=
  Arr2 (build (length am) (length ph)
          (fun i j => gaussian (nth i am 0%R) (nth i pk 0%R) (nth i wd 0%R)
                        (nth j ph 0%R))).

(** The divisor of [calc_profile]: the cached [Amax] when the instance
    has one, else the maximum of what was just computed. *)
Definition divisor (ax : option R) (raw : ndarray) : outcome R :=
  match ax with
  | Some A => Ok A
  | None => amax raw
  end.

(** The raw intensity at one phase as the specification has it: the sum
    over the components [i] of
    [amp[i] * exp(-0.5 * ((phase - peak[i]) / width[i])^2)]. *)
Fixpoint component_sum (am pk wd : list R) (x : R) : R :=
  match am, pk, wd with
  | a :: am', p :: pk', w :: wd' =>
      (gaussian a p w x + component_sum am' pk' wd' x)%R
  | _, _, _ => 0%R
  end.

(** The instance of the scenarios on caching: one component of amplitude 2 at
    phase 0.5, of width 0.05, given as rank-1 arrays. *)
Definition one_component : object :=
  GaussPortrait_new (Some (PArr [0.5%R])) (Some (PArr [0.05%R]))
    (Some (PArr [2%R])).

Definition one_component_raw : ndarray :=
  component_matrix [2%R] [0.5%R] [0.05%R] (grid 256).

(** ** Notions of the further properties *)


(** Two axis lengths that NumPy cannot broadcast together. *)
Definition incompatible (a b : nat) : Prop := a <> b /\ a <> 1 /\ b <> 1.

(** The component matrix of [r] rows when the three arrays are broadcast
    against each other: an array of length 1 lends its one element to
    every row. *)
Definition broadcast_matrix (r : nat) (am pk wd ph : list R) : ndarray :=
  Arr2 (build r (length ph)
          (fun i j => gaussian (nth (pick (length am) i) am 0%R)
                        (nth (pick (length pk) i) pk 0%R)
                        (nth (pick (length wd) i) wd 0%R)
                        (nth j ph 0%R))).

(** [n] calls [self.init_profile(Nphase)] in a row. *)
Fixpoint init_profile_times (n : nat) (Nphase : Z) : M unit :=
  match n with
  | O => mret tt
  | S n' => init_profile Nphase;; init_profile_times n' Nphase
  end.

(** The world after [self._profile = a], and after [init_profile] has
    stored the maximum [m] of [a] and divided [a] by it. *)
Definition with_profile (a : ndarray) (w : world) : world :=
  snd (set_profile a w).

Definition with_cache (a : ndarray) (m : R) (w : world) : world :=
  snd (set_profile (nd_map (fun v => (v / m)%R) a)
         (snd (set_Amax m (with_profile a w)))).

(** * Properties *)

(** ** Computations that leave the world as it is *)

Lemma read_only_ret {A : Type} (a : A) : read_only (mret a).
Proof. intros w. reflexivity. Qed.

Lemma read_only_raise {A : Type} (e : exn) : read_only (@raise A e).
Proof. intros w. reflexivity. Qed.

Lemma read_only_lift {A : Type} (o : outcome A) : read_only (lift o).
Proof. intros w. reflexivity. Qed.

Lemma read_only_bind {A B : Type} (m : M A) (k : A -> M B) :
  read_only m -> (forall a, read_only (k a)) -> read_only (m ≫= k).
Proof.
  intros Hm Hk w. unfold mbind, M_bind.
  specialize (Hm w). destruct (m w) as [[a|e] w']; simpl in Hm; subst w'.
  - apply Hk.
  - reflexivity.
Qed.

Lemma read_only_try_except {A : Type} (body handler : M A) (e : exn) :
  read_only body -> read_only handler -> read_only (try_except body e handler).
Proof.
  intros Hb Hh w. unfold try_except.
  specialize (Hb w). destruct (body w) as [[a|e'] w']; simpl in Hb; subst w'.
  - reflexivity.
  - destruct (decide (e' = e)); [apply Hh | reflexivity].
Qed.

Lemma read_only_read {A : Type} (field : object -> option A) : read_only (read field).
Proof. intros w. unfold read. destruct (field (self w)); reflexivity. Qed.

Lemma read_only_read_profile : read_only read_profile.
Proof. intros w. reflexivity. Qed.

Lemma read_only_property {A : Type} (name : string) (fget : M A) :
  read_only fget -> read_only (property name fget).
Proof.
  intros Hf w. unfold property.
  destruct (decide _); [apply Hf | reflexivity].
Qed.

Lemma read_only_getattr (name : string) : read_only (getattr name).
Proof.
  intros w. unfold getattr.
  destruct (vars (self w) !! name); [reflexivity |].
  destruct (class_lookup _ _ _); reflexivity.
Qed.

Lemma read_only_hasattr (name : string) : read_only (hasattr name).
Proof.
  intros w. unfold hasattr.
  pose proof (read_only_getattr name w) as H.
  destruct (getattr name w) as [[v|e] w']; simpl in *; subst w'; reflexivity.
Qed.

Create HintDb frame_db.
#[local] Hint Resolve read_only_ret read_only_raise read_only_lift read_only_read read_only_read_profile
  read_only_getattr read_only_hasattr : frame_db.
#[local] Hint Extern 2 (read_only (property _ _)) => apply read_only_property : frame_db.
#[local] Hint Extern 2 (read_only (_ ≫= _)) => apply read_only_bind; [| intro] : frame_db.
#[local] Hint Extern 2 (read_only (try_except _ _ _)) =>
  apply read_only_try_except : frame_db.

Lemma read_only_peak : read_only peak.
Proof. unfold peak. auto with frame_db. Qed.

Lemma read_only_width : read_only width.
Proof. unfold width. auto with frame_db. Qed.

Lemma read_only_amp : read_only amp.
Proof. unfold amp. auto with frame_db. Qed.

Lemma read_only_Amax : read_only Amax.
Proof. unfold Amax. auto with frame_db. Qed.

Lemma read_only_profile : read_only profile.
Proof. unfold profile. auto with frame_db. Qed.

#[local] Hint Resolve read_only_peak read_only_width read_only_amp read_only_Amax read_only_profile
  : frame_db.

Lemma read_only_components (ph : list R) : read_only (components ph).
Proof. unfold components. auto 20 with frame_db. Qed.

Lemma read_only_single_component (ph : ndarray) : read_only (single_component ph).
Proof. unfold single_component. auto 20 with frame_db. Qed.

Lemma read_only_load_local {A : Type} (b : option A) : read_only (load_local b).
Proof. destruct b; simpl; auto with frame_db. Qed.

#[local] Hint Resolve read_only_components read_only_single_component read_only_load_local
  : frame_db.

Lemma read_only_calc_profile (phases : list R) : read_only (calc_profile phases).
Proof.
  unfold calc_profile.
  apply read_only_bind; [auto 20 with frame_db | intro raw].
  apply read_only_bind; [auto with frame_db | intros [|]]; auto with frame_db.
Qed.

Lemma read_only_calc_portrait (phases : list R) : read_only (calc_portrait phases).
Proof. unfold calc_portrait. auto with frame_db. Qed.

Lemma read_only_class_method (cs : list class) (name : string)
    (f : list R -> M ndarray) (phases : list R) :
  class_lookup class_methods cs name = Some f -> read_only (f phases).
Proof.
  induction cs as [|c cs IH]; simpl; [discriminate |].
  destruct (class_methods c !! name) as [g|] eqn:Hg; [| exact IH].
  intros [= <-].
  destruct c; simpl in Hg; apply lookup_singleton_Some in Hg as [_ <-].
  - apply read_only_calc_portrait.
  - apply read_only_calc_profile.
Qed.

Lemma read_only_call_method (name : string) (phases : list R) :
  read_only (call_method name phases).
Proof.
  intros w. unfold call_method.
  destruct (class_lookup _ _ _) as [f|] eqn:Hf; [| reflexivity].
  exact (read_only_class_method _ _ _ phases Hf w).
Qed.

(** ** Attribute and method lookup *)

Lemma lookup_bind_attr_ne (k name : string) (v : option value)
    (d : gmap string value) :
  k <> name -> bind_attr k v d !! name = d !! name.
Proof.
  intros Hne. unfold bind_attr. destruct v; [| reflexivity].
  by rewrite lookup_insert_ne.
Qed.

(** No instance carries an attribute [_portrait]. *)
Lemma vars_no_portrait (o : object) : vars o !! "_portrait" = None.
Proof.
  unfold vars. rewrite !lookup_bind_attr_ne by discriminate.
  apply lookup_empty.
Qed.

(** No class of the module binds [_portrait] either. *)
Lemma class_data_no_portrait (c : class) :
  class_lookup class_data (mro c) "_portrait" = None.
Proof. destruct c; reflexivity. Qed.

Lemma getattr_portrait (w : world) :
  getattr "_portrait" w = (Raise AttributeError, w).
Proof.
  unfold getattr. by rewrite vars_no_portrait, class_data_no_portrait.
Qed.

(** What the class-level [_profile = None] and [init_profile] store is
    found under the name [_profile]. *)
Lemma getattr_profile (w : world) :
  getattr "_profile" w =
    (Ok (match _profile (self w) with
         | Some a => VArray a
         | None => VNone
         end), w).
Proof.
  unfold getattr, vars. rewrite !lookup_bind_attr_ne by discriminate.
  destruct (_profile (self w)) as [a|]; simpl.
  - by rewrite lookup_insert_eq.
  - rewrite lookup_bind_attr_ne by discriminate. rewrite lookup_empty.
    by destruct (ob_type (self w)).
Qed.

Lemma hasattr_Amax (w : world) :
  hasattr "_Amax" w = (Ok (bool_decide (is_Some (_Amax (self w)))), w).
Proof.
  unfold hasattr, getattr, vars. rewrite !lookup_bind_attr_ne by discriminate.
  destruct (_Amax (self w)) as [x|]; simpl.
  - by rewrite lookup_insert_eq.
  - rewrite lookup_empty. by destruct (ob_type (self w)).
Qed.

(** [calc_portrait] is bound by [PulsePortrait] alone: the 1-D
    [GaussPortrait] names its evaluator [calc_profile]. *)
Lemma lookup_calc_portrait (c : class) :
  class_lookup class_methods (mro c) "calc_portrait" = Some calc_portrait.
Proof. destruct c; reflexivity. Qed.

Lemma lookup_calc_profile_Gauss :
  class_lookup class_methods (mro GaussPortrait_cls) "calc_profile"
  = Some calc_profile.
Proof. reflexivity. Qed.

(** After the module has run, the name [GaussPortrait] is bound to the
    second, 2-D class. *)
Lemma module_GaussPortrait :
  module_namespace !! "GaussPortrait" = Some GaussPortrait_2D_def.
Proof. reflexivity. Qed.

(** ** The query operation *)

Lemma call_None (w : world) : __call__ None w = (Raise AttributeError, w).
Proof. unfold __call__, mbind, M_bind. by rewrite getattr_portrait. Qed.

Lemma call_Some (phases : list R) (w : world) :
  __call__ (Some phases) w = (Raise NotImplementedError, w).
Proof.
  unfold __call__, mbind, M_bind, call_method.
  by rewrite lookup_calc_portrait.
Qed.

(** ** Running a computation step by step *)

Lemma bind_ok {A B : Type} (m : M A) (k : A -> M B) (w w' : world) (a : A) :
  m w = (Ok a, w') -> (m ≫= k) w = k a w'.
Proof. intros H. unfold mbind, M_bind. by rewrite H. Qed.

Lemma bind_raise {A B : Type} (m : M A) (k : A -> M B) (w w' : world)
    (e : exn) :
  m w = (Raise e, w') -> (m ≫= k) w = (Raise e, w').
Proof. intros H. unfold mbind, M_bind. by rewrite H. Qed.

Lemma lift_ok {A : Type} (a : A) (w : world) : lift (Ok a) w = (Ok a, w).
Proof. reflexivity. Qed.

Ltac mstep H := erewrite bind_ok by (apply H); cbv beta.

(** ** The evaluator of the 1-D portrait *)

Lemma GaussPortrait_new_gauss (pk wd am : param) :
  GaussPortrait_new (Some pk) (Some wd) (Some am) = gauss pk wd am None None.
Proof. reflexivity. Qed.

Lemma property_gauss {A : Type} (name : string) (fget : M A) (w : world) :
  ob_type (self w) = GaussPortrait_cls ->
  name ∈ class_properties GaussPortrait_cls ->
  property name fget w = fget w.
Proof.
  intros Hc Hin. unfold property. rewrite Hc.
  destruct (decide _) as [|Hno]; [reflexivity |].
  exfalso. apply Hno. simpl. by apply Exists_cons_hd.
Qed.

Section Accessors.
Variables (pk wd am : param) (pr : option ndarray) (ax : option R).
Variable log : list string.

Let w0 := World (gauss pk wd am pr ax) log.

Lemma peak_gauss : peak w0 = (Ok pk, w0).
Proof. unfold peak. by rewrite property_gauss by (simpl; set_solver). Qed.

Lemma width_gauss : width w0 = (Ok wd, w0).
Proof. unfold width. by rewrite property_gauss by (simpl; set_solver). Qed.

Lemma amp_gauss : amp w0 = (Ok am, w0).
Proof. unfold amp. by rewrite property_gauss by (simpl; set_solver). Qed.

Lemma Amax_gauss (A : R) : ax = Some A -> Amax w0 = (Ok A, w0).
Proof.
  intros Hax. unfold Amax. rewrite property_gauss by (simpl; set_solver).
  unfold read. subst w0. simpl. by rewrite Hax.
Qed.

End Accessors.

(** The [try] body raises [TypeError] as soon as [amp] is a Python number
    or list: [self.amp[:, np.newaxis]] is its first operation. *)
Lemma components_TypeError (pk wd am : param) pr ax log (ph : list R) :
  colon_newaxis am = Raise TypeError ->
  components ph (World (gauss pk wd am pr ax) log)
  = (Raise TypeError, World (gauss pk wd am pr ax) log).
Proof.
  intros Ham. unfold components.
  mstep amp_gauss. apply bind_raise. by rewrite Ham.
Qed.

(** Then the handler reads the unbound local [profile]. *)
Lemma calc_profile_unbound (pk wd am : param) pr ax log (ph : list R) :
  colon_newaxis am = Raise TypeError ->
  calc_profile ph (World (gauss pk wd am pr ax) log)
  = (Raise UnboundLocalError, World (gauss pk wd am pr ax) log).
Proof.
  intros Ham. unfold calc_profile, mbind at 1, M_bind at 1, try_except.
  rewrite components_TypeError by exact Ham. reflexivity.
Qed.

Lemma init_profile_unbound (pk wd am : param) pr ax log (Nphase : Z) :
  colon_newaxis am = Raise TypeError ->
  init_profile Nphase (World (gauss pk wd am pr ax) log)
  = (Raise UnboundLocalError, World (gauss pk wd am pr ax) log).
Proof.
  intros Ham. unfold init_profile, mbind at 1, M_bind at 1, call_method.
  cbn [self ob_type gauss]. rewrite lookup_calc_profile_Gauss.
  rewrite calc_profile_unbound by exact Ham. reflexivity.
Qed.

(** C3.  With numbers for [peak], [width] and [amp] the evaluator does not
    return: [calc_profile] raises [UnboundLocalError] for every phase
    sequence, whatever is cached; and on
    [GaussPortrait(peak=0.5, width=0.05, amp=1)] the call
    [init_profile(256)] raises it too and leaves no profile cached. *)
Theorem scalar_parameters_raise :
  (forall (pk wd am : R) pr ax log (phases : list R),
      calc_profile phases
        (World (gauss (PNum pk) (PNum wd) (PNum am) pr ax) log)
      = (Raise UnboundLocalError,
         World (gauss (PNum pk) (PNum wd) (PNum am) pr ax) log))
  /\ (let o := GaussPortrait_new (Some (PNum 0.5)) (Some (PNum 0.05))
                 (Some (PNum 1)) in
      init_profile 256 (World o []) = (Raise UnboundLocalError, World o [])
      /\ _profile o = None).
Proof.
  split.
  - intros. by apply calc_profile_unbound.
  - simpl. split; [| reflexivity].
    rewrite GaussPortrait_new_gauss. by apply init_profile_unbound.
Qed.

(** ** What is not implemented *)

(** C8.  The base evaluator raises [NotImplementedError] for every phase
    sequence; so do the constructors of the 2-D [GaussPortrait] and of
    [UserPortrait] for all their arguments; the exception comes out of
    the constructor call, and out of a query with phases on a base
    instance, as it is. *)
Theorem not_implemented :
  (forall (phases : list R) (w : world),
      calc_portrait phases w = (Raise NotImplementedError, w))
  /\ (forall (S : Type) (peak width amp Nphase freqs : value) (blank : S),
        GaussPortrait2D__init__ peak width amp Nphase freqs blank
        = (Raise NotImplementedError, blank)
        /\ construct (GaussPortrait2D__init__ peak width amp Nphase freqs)
             blank = Raise NotImplementedError)
  /\ (forall (S : Type) (blank : S),
        UserPortrait__init__ blank = (Raise NotImplementedError, blank)
        /\ construct UserPortrait__init__ blank = Raise NotImplementedError)
  /\ (forall (phases : list R) (log : list string),
        __call__ (Some phases) (World PulsePortrait_new log)
        = (Raise NotImplementedError, World PulsePortrait_new log)).
Proof.
  split; [reflexivity |].
  split; [intros; split; reflexivity |].
  split; [intros; split; reflexivity |].
  intros phases log. apply call_Some.
Qed.

(** ** Frame *)

(** C9.  [calc_profile] returns or raises in the world it was called in:
    the instance (its [peak], [width], [amp], cached profile and cached
    [Amax]) and the log are unchanged.  The same holds of the accessors, of
    [calc_portrait] and of the query operation, and [__init__] leaves the
    two cache attributes as they are: [init_profile] is the one method
    with an assignment to [_profile] or [_Amax]. *)
Theorem calc_profile_frame :
  (forall (phases : list R) (w : world), snd (calc_profile phases w) = w)
  /\ (forall (w : world),
        snd (peak w) = w /\ snd (width w) = w /\ snd (amp w) = w
        /\ snd (profile w) = w /\ snd (Amax w) = w)
  /\ (forall (phases : list R) (w : world), snd (calc_portrait phases w) = w)
  /\ (forall (phases : option (list R)) (w : world),
        self (snd (__call__ phases w)) = self w)
  /\ (forall (pk wd am : param) (w : world),
        let o' := self (snd (GaussPortrait__init__ pk wd am w)) in
        _profile o' = _profile (self w) /\ _Amax o' = _Amax (self w)).
Proof.
  split; [exact read_only_calc_profile |].
  split.
  { intros w. repeat split;
      [apply read_only_peak | apply read_only_width | apply read_only_amp
      | apply read_only_profile | apply read_only_Amax]. }
  split; [exact read_only_calc_portrait |].
  split.
  { intros [ph|] w.
    - by rewrite call_Some.
    - by rewrite call_None. }
  intros pk wd am w. simpl. split; reflexivity.
Qed.

(** ** Maxima *)

Section Maxima.
Local Open Scope R_scope.

Lemma fold_Rmax_ge_init (xs : list R) (x : R) : x <= fold_left Rmax xs x.
Proof.
  revert x. induction xs as [|y xs IH]; intros x; simpl; [lra |].
  eapply Rle_trans; [apply (Rmax_l x y) | apply IH].
Qed.

Lemma fold_Rmax_ge (xs : list R) (x y : R) :
  In y xs -> y <= fold_left Rmax xs x.
Proof.
  revert x. induction xs as [|z xs IH]; intros x; simpl; [tauto |].
  intros [-> | Hin].
  - eapply Rle_trans; [apply (Rmax_r x y) | apply fold_Rmax_ge_init].
  - by apply IH.
Qed.

Lemma fold_Rmax_in (xs : list R) (x : R) :
  In (fold_left Rmax xs x) (x :: xs).
Proof.
  revert x. induction xs as [|y xs IH]; intros x; simpl; [tauto |].
  destruct (IH (Rmax x y)) as [H | H]; [| tauto].
  rewrite <- H. unfold Rmax. destruct (Rle_dec x y); tauto.
Qed.

Lemma fold_Rmax_map (f : R -> R) (xs : list R) (x : R) :
  (forall a b, a <= b -> f a <= f b) ->
  fold_left Rmax (map f xs) (f x) = f (fold_left Rmax xs x).
Proof.
  intros Hf. revert x. induction xs as [|y xs IH]; intros x; simpl;
    [reflexivity |].
  rewrite <- IH. f_equal.
  unfold Rmax. destruct (Rle_dec x y) as [Hxy | Hxy].
  - destruct (Rle_dec (f x) (f y)) as [|Hn]; [reflexivity |].
    exfalso. apply Hn. by apply Hf.
  - destruct (Rle_dec (f x) (f y)) as [Hfxy |]; [| reflexivity].
    apply Rle_antisym; [| exact Hfxy]. apply Hf. lra.
Qed.

(** [amax] returns the element that bounds all the others. *)
Lemma amax_Ok (a : ndarray) (m : R) :
  amax a = Ok m <->
  In m (elements a) /\ (forall x, In x (elements a) -> x <= m).
Proof.
  unfold amax. destruct (elements a) as [|x xs].
  - split; [discriminate | intros [[] _]].
  - split.
    + intros [= <-]. split; [apply fold_Rmax_in |].
      intros y [<- | Hy]; [apply fold_Rmax_ge_init | by apply fold_Rmax_ge].
    + intros [Hin Hub]. f_equal. apply Rle_antisym.
      * apply Hub. apply fold_Rmax_in.
      * destruct Hin as [<- | Hin];
          [apply fold_Rmax_ge_init | by apply fold_Rmax_ge].
Qed.

Lemma amax_nonempty (a : ndarray) :
  elements a <> [] -> exists m, amax a = Ok m.
Proof.
  unfold amax. destruct (elements a) as [|x xs]; [congruence |]. eauto.
Qed.

Lemma elements_Arr1 (l : list R) : elements (Arr1 l) = l.
Proof. unfold elements. simpl. apply app_nil_r. Qed.

Lemma elements_nd_map (f : R -> R) (a : ndarray) :
  elements (nd_map f a) = map f (elements a).
Proof.
  destruct a as [x | l | m]; unfold elements; simpl.
  - reflexivity.
  - by rewrite !app_nil_r.
  - symmetry. apply concat_map.
Qed.

Lemma amax_nd_map (f : R -> R) (a : ndarray) (m : R) :
  (forall x y, x <= y -> f x <= f y) ->
  amax a = Ok m -> amax (nd_map f a) = Ok (f m).
Proof.
  intros Hf. unfold amax. rewrite elements_nd_map.
  destruct (elements a) as [|x xs]; [discriminate |].
  intros [= <-]. simpl. f_equal. by apply fold_Rmax_map.
Qed.

Lemma div_monotone (A : R) : 0 < A -> forall x y, x <= y -> x / A <= y / A.
Proof.
  intros HA x y Hxy. unfold Rdiv.
  apply Rmult_le_compat_r; [| exact Hxy].
  left. by apply Rinv_0_lt_compat.
Qed.

End Maxima.

(** ** Broadcasting *)

Section Broadcasting.
Local Open Scope R_scope.

Lemma pick_lt (n i : nat) : (i < n)%nat -> pick n i = i.
Proof. unfold pick. destruct (decide (n = 1%nat)); lia. Qed.

Lemma bdim_same (n : nat) : bdim n n = Some n.
Proof. unfold bdim. destruct (decide (n = n)); congruence. Qed.

Lemma bdim_1_l (n : nat) : bdim 1 n = Some n.
Proof.
  unfold bdim. destruct (decide (1%nat = n)); [congruence |].
  destruct (decide (1%nat = 1%nat)); congruence.
Qed.

Lemma bdim_1_r (n : nat) : bdim n 1 = Some n.
Proof.
  unfold bdim. destruct (decide (n = 1%nat)); [reflexivity |].
  destruct (decide (1%nat = 1%nat)); congruence.
Qed.

Lemma nrows_build (r c : nat) (g : nat -> nat -> R) : nrows (build r c g) = r.
Proof. unfold nrows, build. simpl. by rewrite length_map, length_seq. Qed.

Lemma ncols_build (r c : nat) (g : nat -> nat -> R) : ncols (build r c g) = c.
Proof. reflexivity. Qed.

Lemma nth_map_seq {A : Type} (f : nat -> A) (n i : nat) (d : A) :
  (i < n)%nat -> nth i (map f (seq 0 n)) d = f i.
Proof.
  intros Hi. rewrite (nth_indep _ d (f 0%nat)) by (by rewrite length_map, length_seq).
  rewrite (map_nth f). by rewrite seq_nth.
Qed.

Lemma mget_build (r c : nat) (g : nat -> nat -> R) (i j : nat) :
  (i < r)%nat -> (j < c)%nat -> mget (build r c g) i j = g i j.
Proof.
  intros Hi Hj. unfold mget. rewrite nrows_build, ncols_build.
  rewrite (pick_lt r i Hi), (pick_lt c j Hj). unfold build. simpl.
  rewrite (nth_map_seq (fun i => map (g i) (seq 0 c))) by exact Hi.
  by rewrite nth_map_seq.
Qed.

(** A column [l[:, np.newaxis]] and a row [l[np.newaxis, :]] read their
    own index and ignore the other. *)
Lemma mget_col (l : list R) (i j : nat) :
  mget (Mat 1 (map (fun x => [x]) l)) i j = nth (pick (length l) i) l 0.
Proof.
  unfold mget, nrows. simpl. rewrite length_map.
  set (k := pick (length l) i).
  destruct (Nat.lt_ge_cases k (length l)) as [Hk | Hk].
  - rewrite (nth_indep _ [] [0]) by (by rewrite length_map).
    rewrite (map_nth (fun x => [x])). reflexivity.
  - rewrite (nth_overflow (map _ l)) by (by rewrite length_map).
    rewrite (nth_overflow l) by exact Hk. reflexivity.
Qed.

Lemma mget_row (l : list R) (i j : nat) :
  mget (Mat (length l) [l]) i j = nth (pick (length l) j) l 0.
Proof. reflexivity. Qed.

Lemma build_ext (r c : nat) (g h : nat -> nat -> R) :
  (forall i j, (i < r)%nat -> (j < c)%nat -> g i j = h i j) ->
  build r c g = build r c h.
Proof.
  intros Hgh. unfold build. f_equal.
  apply map_ext_in. intros i Hi. apply in_seq in Hi.
  apply map_ext_in. intros j Hj. apply in_seq in Hj.
  apply Hgh; lia.
Qed.

Lemma nd_map_build (f : R -> R) (r c : nat) (g : nat -> nat -> R) :
  nd_map f (Arr2 (build r c g)) = Arr2 (build r c (fun i j => f (g i j))).
Proof.
  unfold nd_map, build. simpl. do 2 f_equal.
  rewrite map_map. apply map_ext. intros i. by rewrite map_map.
Qed.

Lemma binop_Arr2 (f : R -> R -> R) (A B : mat) (r c : nat) :
  bdim (nrows A) (nrows B) = Some r ->
  bdim (ncols A) (ncols B) = Some c ->
  binop f (Arr2 A) (Arr2 B)
  = Ok (Arr2 (build r c (fun i j => f (mget A i j) (mget B i j)))).
Proof. intros Hr Hc. unfold binop. simpl. by rewrite Hr, Hc. Qed.

(** The elements of a built matrix are the values of its generator. *)
Lemma In_elements_build (r c : nat) (g : nat -> nat -> R) (v : R) :
  In v (elements (Arr2 (build r c g))) <->
  exists i j, (i < r)%nat /\ (j < c)%nat /\ v = g i j.
Proof.
  unfold elements, build. simpl. rewrite in_concat. split.
  - intros (row & Hrow & Hv).
    apply in_map_iff in Hrow as (i & <- & Hi). apply in_seq in Hi.
    apply in_map_iff in Hv as (j & <- & Hj). apply in_seq in Hj.
    exists i, j. repeat split; lia.
  - intros (i & j & Hi & Hj & ->).
    exists (map (g i) (seq 0 c)). split.
    + apply in_map_iff. exists i. split; [reflexivity |]. apply in_seq. lia.
    + apply in_map_iff. exists j. split; [reflexivity |]. apply in_seq. lia.
Qed.

End Broadcasting.

(** ** The matrix of components *)

(** With rank-1 arrays of one length for the three parameters the [try]
    body returns, and what it returns is the component matrix: no axis is
    summed. *)
Lemma components_arrays (am pk wd ph : list R) pr ax log :
  length pk = length am -> length wd = length am ->
  components ph (World (gauss (PArr pk) (PArr wd) (PArr am) pr ax) log)
  = (Ok (component_matrix am pk wd ph),
     World (gauss (PArr pk) (PArr wd) (PArr am) pr ax) log).
Proof.
  intros Hpk Hwd. unfold components.
  mstep amp_gauss. mstep @lift_ok.
  mstep peak_gauss. mstep @lift_ok.
  unfold newaxis_colon.
  rewrite (binop_Arr2 Rminus _ _ (length pk) (length ph))
    by (unfold nrows; simpl; rewrite ?length_map;
        first [apply bdim_1_l | apply bdim_1_r]).
  mstep @lift_ok. mstep width_gauss. mstep @lift_ok.
  rewrite (binop_Arr2 Rdiv _ _ (length pk) (length ph))
    by (rewrite ?nrows_build; unfold nrows; simpl;
        rewrite ?length_map, ?Hpk, ?Hwd;
        first [apply bdim_same | apply bdim_1_r]).
  mstep @lift_ok. rewrite !nd_map_build.
  rewrite (binop_Arr2 Rmult _ _ (length am) (length ph))
    by (rewrite ?nrows_build; unfold nrows; simpl; rewrite ?length_map, ?Hpk;
        first [apply bdim_same | apply bdim_1_l]).
  unfold lift.
  unfold component_matrix. do 3 f_equal.
  apply build_ext. intros i j Hi Hj.
  rewrite mget_col, (pick_lt _ _ Hi).
  rewrite !mget_build by lia.
  rewrite (mget_row ph), !mget_col.
  rewrite (pick_lt (length ph) j Hj), Hpk, Hwd, (pick_lt _ _ Hi).
  reflexivity.
Qed.

Lemma calc_profile_arrays (am pk wd ph : list R) pr ax log :
  length pk = length am -> length wd = length am ->
  let w := World (gauss (PArr pk) (PArr wd) (PArr am) pr ax) log in
  let raw := component_matrix am pk wd ph in
  calc_profile ph w
  = (A ← divisor ax raw; Ok (nd_map (fun v => (v / A)%R) raw), w).
Proof.
  intros Hpk Hwd w raw. unfold calc_profile.
  erewrite bind_ok; cycle 1.
  { unfold try_except. subst w. by rewrite components_arrays. }
  cbv beta. erewrite bind_ok by apply hasattr_Amax. cbv beta.
  subst w. cbn [self gauss _Amax]. destruct ax as [A|]; simpl.
  - erewrite bind_ok by (by apply Amax_gauss). reflexivity.
  - fold raw. unfold mbind at 1, M_bind, lift.
    destruct (amax raw); reflexivity.
Qed.

(** One run of [init_profile] on array parameters: [A] is the divisor that
    [calc_profile] applies, [B] the maximum that [init_profile] then finds
    and stores. *)
Lemma init_profile_arrays (am pk wd : list R) pr ax log (Nphase : Z)
    (A B : R) :
  length pk = length am -> length wd = length am ->
  let raw := component_matrix am pk wd (grid Nphase) in
  divisor ax raw = Ok A ->
  amax (nd_map (fun v => (v / A)%R) raw) = Ok B ->
  init_profile Nphase (World (gauss (PArr pk) (PArr wd) (PArr am) pr ax) log)
  = (Ok tt,
     World (gauss (PArr pk) (PArr wd) (PArr am)
              (Some (nd_map (fun v => (v / B)%R)
                       (nd_map (fun v => (v / A)%R) raw)))
              (Some B)) log).
Proof.
  intros Hpk Hwd raw HA HB. unfold init_profile.
  erewrite bind_ok; cycle 1.
  { unfold call_method. cbn [self ob_type gauss].
    rewrite lookup_calc_profile_Gauss.
    rewrite (calc_profile_arrays am pk wd _ pr ax log Hpk Hwd).
    fold (grid Nphase). fold raw. rewrite HA. reflexivity. }
  cbv beta. erewrite bind_ok by reflexivity.
  erewrite bind_ok by reflexivity. cbv beta.
  erewrite bind_ok; cycle 1.
  { unfold max_method, lift. cbn [self _profile]. by rewrite HB. }
  cbv beta. erewrite bind_ok by reflexivity.
  erewrite bind_ok by reflexivity. cbv beta.
  erewrite bind_ok by (by apply Amax_gauss). cbv beta.
  erewrite bind_ok by reflexivity. reflexivity.
Qed.

(** C4.  With rank-1 arrays of [N] components for [peak], [width] and
    [amp] and [M] phases, [calc_profile] divides the [N x M] component
    matrix by its divisor and returns it as it is: entry [(i, j)] is
    [amp[i] * exp(-0.5 * ((phase[j] - peak[i]) / width[i])^2)] over the
    divisor, no component axis is summed, and whatever it returns has the
    shape [(N, M)], not [(M,)]. *)
Theorem calc_profile_returns_component_matrix (am pk wd ph : list R)
    pr ax log :
  length pk = length am -> length wd = length am ->
  let w := World (gauss (PArr pk) (PArr wd) (PArr am) pr ax) log in
  calc_profile ph w
  = (A ← divisor ax (component_matrix am pk wd ph);
     Ok (Arr2 (build (length am) (length ph)
                 (fun i j => (gaussian (nth i am 0) (nth i pk 0) (nth i wd 0)
                                (nth j ph 0) / A)%R))), w)
  /\ (forall a, fst (calc_profile ph w) = Ok a ->
        ndim a = 2 /\ shape a = [length am; length ph]).
Proof.
  intros Hpk Hwd w. subst w.
  rewrite (calc_profile_arrays am pk wd ph pr ax log Hpk Hwd).
  unfold component_matrix.
  destruct (divisor ax _) as [A|e]; unfold mbind, outcome_bind;
    [rewrite nd_map_build |]; split; try reflexivity.
  - intros a [= <-]. simpl. by rewrite nrows_build.
  - intros a [=].
Qed.

Lemma calc_profile_returns_component_matrix_witness :
  let am := [1; 0.5]%R in
  let pk := [0.2; 0.7]%R in
  let wd := [0.05; 0.05]%R in
  let ph := [0.2]%R in
  length pk = length am /\ length wd = length am
  /\ (let w := World (gauss (PArr pk) (PArr wd) (PArr am) None (Some 1%R)) [] in
      calc_profile ph w
      = (A ← divisor (Some 1%R) (component_matrix am pk wd ph);
         Ok (Arr2 (build (length am) (length ph)
                     (fun i j => (gaussian (nth i am 0) (nth i pk 0)
                                    (nth i wd 0) (nth j ph 0) / A)%R))), w)
      /\ (forall a, fst (calc_profile ph w) = Ok a ->
            ndim a = 2 /\ shape a = [length am; length ph])).
Proof.
  intros am pk wd ph.
  split; [reflexivity |]. split; [reflexivity |].
  apply (calc_profile_returns_component_matrix am pk wd ph None (Some 1%R) []);
    reflexivity.
Defined.

(** ** Gaussians on the canonical grid *)

Section Gaussians.
Local Open Scope R_scope.

Lemma exp_nonpos_le_1 (t : R) : t <= 0 -> exp t <= 1.
Proof.
  intros [Ht | ->].
  - left. rewrite <- exp_0. by apply exp_increasing.
  - rewrite exp_0. lra.
Qed.

Lemma gaussian_le (a p w x : R) : 0 <= a -> gaussian a p w x <= a.
Proof.
  intros Ha. unfold gaussian.
  assert (exp (-0.5 * ((x - p) / w) ^ 2) <= 1) as He.
  { apply exp_nonpos_le_1. pose proof (pow2_ge_0 ((x - p) / w)). lra. }
  nra.
Qed.

Lemma gaussian_at_peak (a p w : R) : gaussian a p w p = a.
Proof.
  unfold gaussian. replace (-0.5 * ((p - p) / w) ^ 2) with 0.
  - rewrite exp_0. lra.
  - unfold Rdiv. replace (p - p) with 0 by lra. simpl. lra.
Qed.

Lemma length_grid (n : Z) : length (grid n) = Z.to_nat n.
Proof. unfold grid, arange. by rewrite !length_map, length_seq. Qed.

Lemma nth_grid (n : Z) (j : nat) :
  (j < Z.to_nat n)%nat -> nth j (grid n) 0 = IZR (Z.of_nat j) / IZR n.
Proof.
  intros Hj. unfold grid, arange. rewrite map_map.
  by rewrite (nth_map_seq (fun k => IZR (Z.of_nat k) / IZR n)).
Qed.

(** The raw maximum of one component of amplitude [a >= 0] whose peak is
    a point of the grid is [a]. *)
Lemma amax_single_component (a p w : R) (n : Z) (k : nat) :
  0 <= a -> (k < Z.to_nat n)%nat -> IZR (Z.of_nat k) / IZR n = p ->
  amax (component_matrix [a] [p] [w] (grid n)) = Ok a.
Proof.
  intros Ha Hk Hp. apply amax_Ok. unfold component_matrix. split.
  - apply In_elements_build. exists 0%nat, k.
    rewrite length_grid. split; [simpl; lia |]. split; [exact Hk |].
    rewrite (nth_grid n k Hk), Hp. simpl. by rewrite gaussian_at_peak.
  - intros x Hx. apply In_elements_build in Hx as (i & j & Hi & Hj & ->).
    simpl in Hi. replace i with 0%nat by lia. simpl. by apply gaussian_le.
Qed.

Lemma nd_map_nd_map (f g : R -> R) (a : ndarray) :
  nd_map f (nd_map g a) = nd_map (fun x => f (g x)) a.
Proof.
  destruct a as [x | l | m]; simpl.
  - reflexivity.
  - by rewrite map_map.
  - do 2 f_equal. rewrite map_map. apply map_ext. intros r. by rewrite map_map.
Qed.

Lemma nd_map_ext (f g : R -> R) (a : ndarray) :
  (forall x, f x = g x) -> nd_map f a = nd_map g a.
Proof.
  intros Hfg. destruct a as [x | l | m]; simpl.
  - by rewrite Hfg.
  - f_equal. by apply map_ext.
  - do 2 f_equal. apply map_ext. intros r. by apply map_ext.
Qed.

End Gaussians.

(** ** What [init_profile] caches *)

Section Caching.
Local Open Scope R_scope.

Lemma one_component_raw_max : amax one_component_raw = Ok 2.
Proof.
  apply (amax_single_component 2 0.5 0.05 256 128).
  - lra.
  - lia.
  - change (Z.of_nat 128) with 128%Z. lra.
Qed.

Lemma one_component_first_init :
  init_profile 256 (World one_component [])
  = (Ok tt,
     World (gauss (PArr [0.5]) (PArr [0.05]) (PArr [2])
              (Some (nd_map (fun v => v / 1)
                       (nd_map (fun v => v / 2) one_component_raw)))
              (Some 1)) []).
Proof.
  apply init_profile_arrays; try reflexivity.
  - exact one_component_raw_max.
  - replace 1 with (2 / 2) by lra.
    apply (amax_nd_map (fun v => v / 2)); [apply div_monotone; lra |].
    exact one_component_raw_max.
Qed.

(** After that first call [calc_profile] divides by the cached 1: at the
    peak it returns the raw 2, not 1. *)
Lemma one_component_unnormalised (pr : option ndarray) :
  exists a,
    calc_profile [0.5]
      (World (gauss (PArr [0.5]) (PArr [0.05]) (PArr [2]) pr (Some 1)) [])
    = (Ok a, World (gauss (PArr [0.5]) (PArr [0.05]) (PArr [2]) pr (Some 1)) [])
    /\ amax a = Ok 2.
Proof.
  eexists. split.
  - by rewrite (calc_profile_arrays [2] [0.5] [0.05] [0.5] pr (Some 1) []).
  - rewrite (amax_nd_map (fun v => v / 1) _ 2).
    + f_equal. lra.
    + apply div_monotone. lra.
    + unfold amax, elements. simpl. by rewrite gaussian_at_peak.
Qed.

Lemma one_component_second_init (pr : option ndarray) :
  init_profile 256
    (World (gauss (PArr [0.5]) (PArr [0.05]) (PArr [2]) pr (Some 1)) [])
  = (Ok tt,
     World (gauss (PArr [0.5]) (PArr [0.05]) (PArr [2])
              (Some (nd_map (fun v => v / 2)
                       (nd_map (fun v => v / 1) one_component_raw)))
              (Some 2)) []).
Proof.
  apply init_profile_arrays; try reflexivity.
  replace 2 with (2 / 1) at 2 by lra.
  apply (amax_nd_map (fun v => v / 1)); [apply div_monotone; lra |].
  exact one_component_raw_max.
Qed.

End Caching.

(** ** Normalisation *)

Section Normalisation.
Local Open Scope R_scope.

Lemma component_sum_pos (am pk wd : list R) (x : R) :
  0 < component_sum am pk wd x ->
  exists i, (i < length am)%nat
            /\ 0 < gaussian (nth i am 0) (nth i pk 0) (nth i wd 0) x.
Proof.
  revert pk wd. induction am as [|a am IH]; intros pk wd; simpl; [lra |].
  destruct pk as [|p pk]; [lra |]. destruct wd as [|w wd]; [lra |].
  intros Hpos. destruct (Rlt_dec 0 (gaussian a p w x)) as [Hg | Hg].
  - exists 0%nat. split; [lia | exact Hg].
  - destruct (IH pk wd) as (i & Hi & Hgi); [lra |].
    exists (S i). split; [lia | exact Hgi].
Qed.

(** A positive maximum of the component sum over the phases gives the
    component matrix a positive maximum. *)
Lemma component_matrix_max_pos (am pk wd ph : list R) (m : R) :
  amax (Arr1 (map (component_sum am pk wd) ph)) = Ok m -> 0 < m ->
  exists A, amax (component_matrix am pk wd ph) = Ok A /\ 0 < A.
Proof.
  intros Hm Hpos. apply amax_Ok in Hm as [Hin _].
  rewrite elements_Arr1 in Hin.
  apply in_map_iff in Hin as (x & Hx & Hxin).
  apply (In_nth _ _ 0) in Hxin as (j & Hj & Hnth).
  rewrite <- Hx in Hpos.
  apply component_sum_pos in Hpos as (i & Hi & Hg).
  assert (In (gaussian (nth i am 0) (nth i pk 0) (nth i wd 0) x)
            (elements (component_matrix am pk wd ph))) as Hel.
  { apply In_elements_build. exists i, j. by rewrite Hnth. }
  destruct (amax_nonempty (component_matrix am pk wd ph)) as [A HA].
  { intros Hnil. by rewrite Hnil in Hel. }
  exists A. split; [exact HA |].
  apply amax_Ok in HA as [_ Hub]. specialize (Hub _ Hel). lra.
Qed.

Lemma amax_self_normalised (a : ndarray) (A : R) :
  amax a = Ok A -> 0 < A -> amax (nd_map (fun v => v / A) a) = Ok 1.
Proof.
  intros HA Hpos. replace 1 with (A / A) by (field; lra).
  apply (amax_nd_map (fun v => v / A)); [by apply div_monotone | exact HA].
Qed.

(** On a fresh instance with array parameters whose component matrix has
    a positive maximum, [init_profile] caches a profile of maximum 1, and
    1 as [Amax]. *)
Lemma init_profile_fresh_arrays (am pk wd : list R) pr log (Nphase : Z)
    (A : R) :
  length pk = length am -> length wd = length am ->
  let raw := component_matrix am pk wd (grid Nphase) in
  let cached := nd_map (fun v => v / 1) (nd_map (fun v => v / A) raw) in
  amax raw = Ok A -> 0 < A ->
  init_profile Nphase (World (gauss (PArr pk) (PArr wd) (PArr am) pr None) log)
  = (Ok tt, World (gauss (PArr pk) (PArr wd) (PArr am) (Some cached) (Some 1))
              log)
  /\ amax cached = Ok 1.
Proof.
  intros Hpk Hwd raw cached HA Hpos.
  pose proof (amax_self_normalised raw A HA Hpos) as H1. split.
  - by apply init_profile_arrays.
  - apply (amax_self_normalised _ 1 H1). lra.
Qed.

End Normalisation.

Section Claims.
Local Open Scope R_scope.

(** C1.  The query without phases reads [self._portrait], a name that
    neither the instance nor a class binds: on every instance, whether
    [init_profile] ran on it or not, the call raises [AttributeError], logs
    nothing and returns nothing.  What the claim expects as the result is
    found under the name [_profile]: [None] on a fresh instance, the cached
    array after [init_profile]. *)
Theorem call_without_phases_raises :
  (forall (o : object) (log : list string),
      __call__ None (World o log) = (Raise AttributeError, World o log))
  /\ (forall (log : list string),
        getattr "_profile" (World PulsePortrait_new log)
        = (Ok VNone, World PulsePortrait_new log))
  /\ (exists o' a,
        init_profile 256 (World one_component []) = (Ok tt, World o' [])
        /\ getattr "_profile" (World o' []) = (Ok (VArray a), World o' [])
        /\ __call__ None (World o' []) = (Raise AttributeError, World o' [])).
Proof.
  split.
  { intros o log. unfold __call__, mbind, M_bind.
    by rewrite getattr_portrait. }
  split.
  { intros log. by rewrite getattr_profile. }
  do 2 eexists. split; [exact one_component_first_init |]. split.
  - by rewrite getattr_profile.
  - apply call_None.
Qed.

(** C2.  The query with phases calls [self.calc_portrait], which the 1-D
    [GaussPortrait] does not override: the base method runs and raises
    [NotImplementedError] on every instance, the 1-D [GaussPortrait] ones
    among them, and for every phase sequence; also where the evaluator
    [calc_profile] of the instance returns for these phases. *)
Theorem call_with_phases_raises :
  (forall (o : object) (log : list string) (phases : list R),
      __call__ (Some phases) (World o log)
      = (Raise NotImplementedError, World o log))
  /\ (forall (a p w A : R) pr log (phases : list R),
        let g := gauss (PArr [p]) (PArr [w]) (PArr [a]) pr (Some A) in
        calc_profile phases (World g log)
        = (Ok (nd_map (fun v => v / A) (component_matrix [a] [p] [w] phases)),
           World g log)
        /\ __call__ (Some phases) (World g log)
           = (Raise NotImplementedError, World g log)).
Proof.
  split.
  { intros o log phases. unfold __call__, mbind, M_bind, call_method.
    by rewrite lookup_calc_portrait. }
  intros a p w A pr log phases g. split.
  - subst g. by rewrite (calc_profile_arrays [a] [p] [w] phases pr (Some A) log).
  - apply call_Some.
Qed.

(** C5.  On the fresh instance of one component of amplitude 2 at phase
    0.5, given as arrays, the raw intensities over the grid of 256 phases
    have the maximum 2, as has the component sum of the specification;
    [init_profile(256)] caches 1 as [Amax], the maximum of the profile
    that [calc_profile] has normalised already, and the cached profile is
    the raw matrix over 2, which is not the raw matrix over [Amax]. *)
Theorem first_init_caches_normalised_maximum :
  exists o',
    components (grid 256) (World one_component [])
    = (Ok one_component_raw, World one_component [])
    /\ amax one_component_raw = Ok 2
    /\ amax (Arr1 (map (component_sum [2] [0.5] [0.05]) (grid 256))) = Ok 2
    /\ init_profile 256 (World one_component []) = (Ok tt, World o' [])
    /\ _Amax o' = Some 1
    /\ _profile o'
       = Some (nd_map (fun v => v / 1)
                 (nd_map (fun v => v / 2) one_component_raw))
    /\ _profile o' <> Some (nd_map (fun v => v / 1) one_component_raw).
Proof.
  eexists. split; [by apply components_arrays |].
  split; [exact one_component_raw_max |].
  split.
  { apply amax_Ok. rewrite elements_Arr1. split.
    - apply in_map_iff. exists 0.5. split.
      + simpl. rewrite gaussian_at_peak. lra.
      + replace 0.5 with (nth 128 (grid 256) 0).
        * apply nth_In. rewrite length_grid. lia.
        * rewrite nth_grid by lia. change (Z.of_nat 128) with 128%Z. lra.
    - intros x Hx. apply in_map_iff in Hx as (y & <- & _). simpl.
      pose proof (gaussian_le 2 0.5 0.05 y). lra. }
  split; [exact one_component_first_init |].
  split; [reflexivity |]. split; [reflexivity |].
  assert (amax (nd_map (fun v => v / 1)
                  (nd_map (fun v => v / 2) one_component_raw)) = Ok (2 / 2 / 1))
    as Hleft.
  { apply (amax_nd_map (fun v => v / 1)); [apply div_monotone; lra |].
    apply (amax_nd_map (fun v => v / 2)); [apply div_monotone; lra |].
    exact one_component_raw_max. }
  assert (amax (nd_map (fun v => v / 1) one_component_raw) = Ok (2 / 1))
    as Hright.
  { apply (amax_nd_map (fun v => v / 1)); [apply div_monotone; lra |].
    exact one_component_raw_max. }
  cbn [_profile gauss]. intros Heq.
  assert (Ok (2 / 2 / 1) = Ok (2 / 1)) as Habs.
  { rewrite <- Hleft, <- Hright. congruence. }
  injection Habs. lra.
Qed.

(** C6.  On the same instance two calls of [init_profile(256)] in a row
    both return; the cached profile is the same after each, but the
    cached [Amax] is 1 after the first call and 2 after the second. *)
Theorem init_profile_twice_changes_Amax :
  exists o1 o2,
    init_profile 256 (World one_component []) = (Ok tt, World o1 [])
    /\ init_profile 256 (World o1 []) = (Ok tt, World o2 [])
    /\ _Amax o1 = Some 1
    /\ _Amax o2 = Some 2
    /\ _profile o1 = _profile o2.
Proof.
  do 2 eexists. split; [exact one_component_first_init |].
  split; [apply one_component_second_init |].
  split; [reflexivity |]. split; [reflexivity |].
  cbn [_profile gauss]. f_equal. rewrite !nd_map_nd_map. apply nd_map_ext.
  intros x. lra.
Qed.

(** C7.  On the portrait of the default parameters
    [GaussPortrait()], that is [peak=0.5, width=0.05, amp=1],
    [init_profile(Nphase)] raises [UnboundLocalError] for every [Nphase]
    and caches nothing: the profile of the instance stays [None], so no
    canonical profile of maximum 1 comes to be. *)
Theorem default_parameters_cache_no_profile (Nphase : Z) (log : list string) :
  let o := GaussPortrait_new None None None in
  init_profile Nphase (World o log) = (Raise UnboundLocalError, World o log)
  /\ profile (World o log) = (Ok None, World o log).
Proof.
  simpl. split.
  - by apply init_profile_unbound.
  - unfold profile. by rewrite property_gauss by (simpl; set_solver).
Qed.

(** C10.  On an instance without a cached [Amax], with rank-1 arrays of
    one length for the three parameters and phases over which the raw
    component sum has a positive maximum, [calc_profile] returns, and the
    maximum of the array it returns is 1. *)
Theorem fresh_calc_profile_max_one (am pk wd ph : list R) pr log (m : R) :
  length pk = length am -> length wd = length am ->
  amax (Arr1 (map (component_sum am pk wd) ph)) = Ok m -> 0 < m ->
  let w := World (gauss (PArr pk) (PArr wd) (PArr am) pr None) log in
  exists a, calc_profile ph w = (Ok a, w) /\ amax a = Ok 1.
Proof.
  intros Hpk Hwd Hm Hpos w.
  destruct (component_matrix_max_pos am pk wd ph m Hm Hpos) as (A & HA & HApos).
  exists (nd_map (fun v => v / A) (component_matrix am pk wd ph)). split.
  - subst w. rewrite (calc_profile_arrays am pk wd ph pr None log Hpk Hwd).
    simpl divisor. by rewrite HA.
  - by apply amax_self_normalised.
Qed.

Lemma fresh_calc_profile_max_one_witness :
  let am := [1; 0.5] in
  let pk := [0.2; 0.7] in
  let wd := [0.05; 0.05] in
  let ph := [0.2] in
  let m := component_sum am pk wd 0.2 in
  length pk = length am /\ length wd = length am
  /\ amax (Arr1 (map (component_sum am pk wd) ph)) = Ok m /\ 0 < m
  /\ (let w := World (gauss (PArr pk) (PArr wd) (PArr am) None None) [] in
      exists a, calc_profile ph w = (Ok a, w) /\ amax a = Ok 1).
Proof.
  intros am pk wd ph m.
  assert (0 < m) as Hpos.
  { subst m am pk wd. simpl. rewrite gaussian_at_peak.
    unfold gaussian. pose proof (exp_pos (-0.5 * ((0.2 - 0.7) / 0.05) ^ 2)).
    lra. }
  split; [reflexivity |]. split; [reflexivity |].
  split; [reflexivity |]. split; [exact Hpos |].
  apply (fresh_calc_profile_max_one am pk wd ph None [] m);
    [reflexivity | reflexivity | reflexivity | exact Hpos].
Defined.

End Claims.

(** ** The evaluator on concrete inputs *)

(** Python lists for the parameters end as numbers do: a list cannot be
    subscripted by [[:, np.newaxis]]. *)
Example list_parameters_raise :
  fst (calc_profile [0.2%R]
         (World (GaussPortrait_new (Some (PList [0.2; 0.7]%R))
                   (Some (PList [0.05; 0.05]%R)) (Some (PList [1; 0.5]%R)))
            []))
  = Raise UnboundLocalError.
Proof. reflexivity. Qed.

(** Two components at three phases: a [(2, 3)] array. *)
Example two_components_shape :
  match fst (calc_profile [0.2%R; 0.3%R; 0.4%R]
               (World (gauss (PArr [0.2; 0.7]%R) (PArr [0.05; 0.05]%R)
                         (PArr [1; 0.5]%R) None (Some 1%R)) [])) with
  | Ok a => shape a
  | Raise _ => []
  end = [2; 3].
Proof. reflexivity. Qed.

(** Arrays of different lengths cannot be broadcast together. *)
Example unequal_lengths_raise :
  fst (calc_profile [0.2%R; 0.3%R; 0.4%R]
         (World (gauss (PArr [0.2; 0.7]%R) (PArr [0.05; 0.05; 0.1]%R)
                   (PArr [1; 0.5]%R) None (Some 1%R)) []))
  = Raise ValueError.
Proof. reflexivity. Qed.

(** Without phases there is no maximum to divide by. *)
Example no_phase_bins_raise :
  fst (init_profile 0
         (World (gauss (PArr [0.2; 0.7]%R) (PArr [0.05; 0.05]%R)
                   (PArr [1; 0.5]%R) None None) []))
  = Raise ValueError.
Proof. reflexivity. Qed.

(** * Further properties *)

(** ** How [init_profile] and [calc_profile] run *)

Lemma init_profile_base (Nphase : Z) (w : world) :
  ob_type (self w) = PulsePortrait_cls ->
  init_profile Nphase w = (Raise AttributeError, w).
Proof.
  intros Hc. unfold init_profile, mbind, M_bind, call_method.
  cbv beta zeta. by rewrite Hc.
Qed.

(** On an instance of the 1-D class: the evaluator runs on the grid; its
    result is assigned, then its maximum is taken and stored, then the
    assigned array is divided by it. *)
Lemma init_profile_run (Nphase : Z) (w : world) :
  ob_type (self w) = GaussPortrait_cls ->
  init_profile Nphase w
  = match fst (calc_profile (grid Nphase) w) with
    | Raise e => (Raise e, w)
    | Ok a =>
        match amax a with
        | Raise e => (Raise e, with_profile a w)
        | Ok m => (Ok tt, with_cache a m w)
        end
    end.
Proof.
  intros Hc. unfold init_profile. cbv zeta.
  assert (call_method "calc_profile" (grid Nphase) w
          = calc_profile (grid Nphase) w) as Hcall.
  { unfold call_method. by rewrite Hc, lookup_calc_profile_Gauss. }
  pose proof (read_only_calc_profile (grid Nphase) w) as Hro.
  destruct (calc_profile (grid Nphase) w) as [[a|e] w'] eqn:Hcalc;
    simpl in Hro; subst w'; simpl fst.
  - erewrite bind_ok by exact Hcall.
    erewrite bind_ok by reflexivity.
    erewrite bind_ok by reflexivity. cbv beta.
    unfold max_method. cbn [snd set_profile self _profile].
    destruct (amax a) as [m|e] eqn:Hmax.
    + erewrite bind_ok by reflexivity.
      erewrite bind_ok by reflexivity.
      erewrite bind_ok by reflexivity. cbv beta.
      erewrite bind_ok; cycle 1.
      { unfold Amax. rewrite property_gauss by (first [exact Hc | simpl; set_solver]).
        reflexivity. }
      erewrite bind_ok by reflexivity. reflexivity.
    + erewrite bind_raise by reflexivity. reflexivity.
  - erewrite bind_raise by exact Hcall. reflexivity.
Qed.

(** Without a cached [Amax] the evaluator returns what it computed over
    the maximum of that. *)
Lemma calc_profile_fresh_returns (ph : list R) (w : world) (a : ndarray) :
  _Amax (self w) = None -> fst (calc_profile ph w) = Ok a ->
  exists raw A, amax raw = Ok A /\ a = nd_map (fun v => (v / A)%R) raw.
Proof.
  intros Hax. unfold calc_profile. cbv zeta.
  match goal with
  | |- context [try_except ?b ?e ?h] => set (body := try_except b e h)
  end.
  assert (read_only body) as Hro.
  { subst body. apply read_only_try_except; [apply read_only_components |].
    apply read_only_bind; [apply read_only_load_local | intro].
    apply read_only_bind; [apply read_only_single_component | intro].
    apply read_only_lift. }
  specialize (Hro w).
  destruct (body w) as [[raw|e] w1] eqn:Hbody; simpl in Hro; subst w1.
  - erewrite bind_ok by exact Hbody.
    erewrite bind_ok by apply hasattr_Amax. rewrite Hax. cbn [bool_decide].
    replace (bool_decide (is_Some (@None R))) with false by reflexivity.
    unfold mbind at 1, M_bind, lift. destruct (amax raw) as [A|e'] eqn:Hmax.
    + simpl. intros [= <-]. by exists raw, A.
    + simpl. discriminate.
  - erewrite bind_raise by exact Hbody. simpl. discriminate.
Qed.

Lemma amax_nd_map_Ok (f : R -> R) (a : ndarray) (m : R) :
  amax a = Ok m -> exists m', amax (nd_map f a) = Ok m'.
Proof.
  intros Hm. apply amax_nonempty. rewrite elements_nd_map.
  unfold amax in Hm. destruct (elements a); [discriminate | discriminate].
Qed.

(** ** [init_profile] on any instance *)

Section InitProfile.
Local Open Scope R_scope.

(** X1.  Whatever it is called on and however it ends, [init_profile]
    leaves the class of the instance, its [peak], [width] and [amp], and
    the log as they were: the parameters given to the constructor are
    never reassigned. *)
Theorem init_profile_keeps_parameters (Nphase : Z) (w : world) :
  let w' := snd (init_profile Nphase w) in
  ob_type (self w') = ob_type (self w)
  /\ _peak (self w') = _peak (self w)
  /\ _width (self w') = _width (self w)
  /\ _amp (self w') = _amp (self w)
  /\ warnings w' = warnings w.
Proof.
  destruct (ob_type (self w)) eqn:Hc.
  - rewrite (init_profile_base Nphase w Hc). simpl. by rewrite Hc.
  - rewrite (init_profile_run Nphase w Hc).
    destruct (fst (calc_profile (grid Nphase) w)) as [a|e].
    + destruct (amax a) as [m|e]; simpl; by rewrite Hc.
    + simpl. by rewrite Hc.
Qed.

(** X2.  On an instance without a cached [Amax], [init_profile] is all or
    nothing: it returns, or it raises and leaves the world as it was. *)
Theorem init_profile_fresh_all_or_nothing (Nphase : Z) (w : world) :
  _Amax (self w) = None ->
  (exists w', init_profile Nphase w = (Ok tt, w'))
  \/ (exists e, init_profile Nphase w = (Raise e, w)).
Proof.
  intros Hax. destruct (ob_type (self w)) eqn:Hc.
  - right. exists AttributeError. by apply init_profile_base.
  - rewrite (init_profile_run Nphase w Hc).
    destruct (fst (calc_profile (grid Nphase) w)) as [a|e] eqn:Hcalc.
    + destruct (calc_profile_fresh_returns _ _ _ Hax Hcalc)
        as (raw & A & Hmax & ->).
      destruct (amax_nd_map_Ok (fun v => v / A) raw A Hmax) as [m Hm].
      rewrite Hm. left. eauto.
    + right. eauto.
Qed.

Lemma init_profile_fresh_all_or_nothing_witness :
  let w := World (GaussPortrait_new None None None) [] in
  _Amax (self w) = None
  /\ ((exists w', init_profile 256 w = (Ok tt, w'))
      \/ (exists e, init_profile 256 w = (Raise e, w))).
Proof.
  intros w. split; [reflexivity |].
  apply (init_profile_fresh_all_or_nothing 256 w). reflexivity.
Defined.

(** X3.  When [init_profile] returns, both cache attributes are set: the
    stored [Amax] is the maximum [m] of the array [a] that the evaluator
    returned, and the stored profile is [a] over [m].  From then on the
    accessors [profile] and [Amax] return them, and when [m] is positive
    the stored profile has the maximum 1. *)
Theorem init_profile_returns_cached (Nphase : Z) (w w' : world) :
  init_profile Nphase w = (Ok tt, w') ->
  exists a m,
    fst (calc_profile (grid Nphase) w) = Ok a
    /\ amax a = Ok m
    /\ _profile (self w') = Some (nd_map (fun v => v / m) a)
    /\ _Amax (self w') = Some m
    /\ profile w' = (Ok (Some (nd_map (fun v => v / m) a)), w')
    /\ Amax w' = (Ok m, w')
    /\ (0 < m -> amax (nd_map (fun v => v / m) a) = Ok 1).
Proof.
  destruct (ob_type (self w)) eqn:Hc.
  - rewrite (init_profile_base Nphase w Hc). discriminate.
  - rewrite (init_profile_run Nphase w Hc).
    destruct (fst (calc_profile (grid Nphase) w)) as [a|e]; [| discriminate].
    destruct (amax a) as [m|e] eqn:Hmax; [| discriminate].
    intros [= <-]. exists a, m.
    assert (ob_type (self (with_cache a m w)) = GaussPortrait_cls) as Hc'
      by exact Hc.
    split; [reflexivity |]. split; [exact Hmax |].
    split; [reflexivity |]. split; [reflexivity |].
    split; [| split].
    + unfold profile.
      by rewrite property_gauss by (first [exact Hc' | simpl; set_solver]).
    + unfold Amax.
      by rewrite property_gauss by (first [exact Hc' | simpl; set_solver]).
    + intros Hpos. by apply amax_self_normalised.
Qed.

Lemma init_profile_returns_cached_witness :
  let w := World one_component [] in
  let w' := snd (init_profile 256 w) in
  init_profile 256 w = (Ok tt, w')
  /\ exists a m,
       fst (calc_profile (grid 256) w) = Ok a
       /\ amax a = Ok m
       /\ _profile (self w') = Some (nd_map (fun v => v / m) a)
       /\ _Amax (self w') = Some m
       /\ profile w' = (Ok (Some (nd_map (fun v => v / m) a)), w')
       /\ Amax w' = (Ok m, w')
       /\ (0 < m -> amax (nd_map (fun v => v / m) a) = Ok 1).
Proof.
  intros w w'.
  assert (init_profile 256 w = (Ok tt, w')) as H.
  { subst w w'. by rewrite one_component_first_init. }
  split; [exact H |].
  exact (init_profile_returns_cached 256 w w' H).
Defined.

End InitProfile.

(** ** Arrays of different lengths *)

Section Lengths.
Local Open Scope R_scope.

Ltac axes :=
  unfold incompatible, bdim, pick in *; repeat case_decide; simplify_eq;
  try done; try lia; try (exfalso; lia); try (f_equal; lia).

Lemma mget_build_pick (r c : nat) (g : nat -> nat -> R) (i j : nat) :
  (pick r i < r)%nat -> (pick c j < c)%nat ->
  mget (build r c g) i j = g (pick r i) (pick c j).
Proof.
  intros Hi Hj. unfold mget. rewrite nrows_build, ncols_build.
  unfold build. simpl.
  rewrite (nth_map_seq (fun i => map (g i) (seq 0 c))) by exact Hi.
  by rewrite nth_map_seq.
Qed.

Lemma binop_Arr2_rows (f : R -> R -> R) (A B : mat) :
  bdim (nrows A) (nrows B) = None ->
  binop f (Arr2 A) (Arr2 B) = Raise ValueError.
Proof. intros Hr. unfold binop. simpl. by rewrite Hr. Qed.

Lemma bdim_incompatible (a b : nat) : bdim a b = None <-> incompatible a b.
Proof. split; [intros H | intros (H1 & H2 & H3)]; axes. Qed.

(** The [try] body on three rank-1 arrays of any lengths. *)
Lemma components_broadcast (am pk wd ph : list R) pr ax log :
  let w := World (gauss (PArr pk) (PArr wd) (PArr am) pr ax) log in
  components ph w
  = (match bdim (length pk) (length wd) with
     | None => Raise ValueError
     | Some k =>
         match bdim (length am) k with
         | None => Raise ValueError
         | Some r => Ok (broadcast_matrix r am pk wd ph)
         end
     end, w).
Proof.
  intros w. subst w. unfold components.
  mstep amp_gauss. mstep @lift_ok.
  mstep peak_gauss. mstep @lift_ok.
  unfold newaxis_colon.
  rewrite (binop_Arr2 Rminus _ _ (length pk) (length ph))
    by (unfold nrows; simpl; rewrite ?length_map;
        first [apply bdim_1_l | apply bdim_1_r]).
  mstep @lift_ok. mstep width_gauss. mstep @lift_ok.
  destruct (bdim (length pk) (length wd)) as [k|] eqn:Hk.
  - rewrite (binop_Arr2 Rdiv _ _ k (length ph))
      by (rewrite ?nrows_build; unfold nrows; simpl; rewrite ?length_map;
          first [exact Hk | apply bdim_1_r]).
    mstep @lift_ok. rewrite !nd_map_build.
    destruct (bdim (length am) k) as [r|] eqn:Hr.
    + rewrite (binop_Arr2 Rmult _ _ r (length ph))
        by (rewrite ?nrows_build; unfold nrows; simpl; rewrite ?length_map;
            first [exact Hr | apply bdim_1_l]).
      unfold lift, broadcast_matrix. do 3 f_equal.
      apply build_ext. intros i j Hi Hj.
      assert (pick k i < k)%nat as Hki by axes.
      assert (pick (length pk) (pick k i) < length pk)%nat as Hpi by axes.
      assert (pick (length pk) (pick (length pk) (pick k i))
              = pick (length pk) i) as Hp by axes.
      assert (pick (length wd) (pick k i) = pick (length wd) i) as Hw by axes.
      rewrite mget_col.
      assert (pick (length ph) j = j) as Hjj by (by apply pick_lt).
      rewrite (mget_build_pick k) by (first [exact Hki | by rewrite Hjj]).
      rewrite Hjj.
      rewrite (mget_build_pick (length pk))
        by (first [exact Hpi | by rewrite Hjj]).
      rewrite (mget_row ph), !mget_col.
      repeat rewrite Hjj. rewrite Hp, Hw. reflexivity.
    + rewrite binop_Arr2_rows
        by (rewrite nrows_build; unfold nrows; simpl; by rewrite length_map).
      reflexivity.
  - rewrite binop_Arr2_rows
      by (rewrite nrows_build; unfold nrows; simpl; by rewrite length_map).
    reflexivity.
Qed.

Lemma calc_profile_broadcast (am pk wd ph : list R) pr ax log :
  let w := World (gauss (PArr pk) (PArr wd) (PArr am) pr ax) log in
  calc_profile ph w
  = (match bdim (length pk) (length wd) with
     | None => Raise ValueError
     | Some k =>
         match bdim (length am) k with
         | None => Raise ValueError
         | Some r =>
             A ← divisor ax (broadcast_matrix r am pk wd ph);
             Ok (nd_map (fun v => v / A) (broadcast_matrix r am pk wd ph))
         end
     end, w).
Proof.
  intros w. unfold calc_profile. cbv zeta.
  pose proof (components_broadcast am pk wd ph pr ax log) as Hc.
  fold w in Hc. simpl in Hc.
  destruct (bdim (length pk) (length wd)) as [k|].
  - destruct (bdim (length am) k) as [r|].
    + erewrite bind_ok; cycle 1.
      { unfold try_except. by rewrite Hc. }
      erewrite bind_ok by apply hasattr_Amax.
      subst w. cbn [self gauss _Amax]. destruct ax as [A|]; simpl.
      * erewrite bind_ok by (by apply Amax_gauss). reflexivity.
      * unfold mbind at 1, M_bind, lift.
        destruct (amax _); reflexivity.
    + erewrite bind_raise; [reflexivity |].
      unfold try_except. by rewrite Hc.
  - erewrite bind_raise; [reflexivity |].
    unfold try_except. by rewrite Hc.
Qed.

End Lengths.

Section LengthProperties.
Local Open Scope R_scope.

Ltac axes :=
  unfold incompatible, bdim, pick in *; repeat case_decide; simplify_eq;
  try done; try lia; try (exfalso; lia); try (f_equal; lia).

(** X4.  Three arrays whose lengths are not all the same, none of them
    of length 1, cannot be broadcast: [calc_profile] raises [ValueError]
    for every phase sequence, cached [Amax] or not, and [init_profile]
    raises it too; the world stays as it was. *)
Theorem mismatched_lengths_raise (am pk wd ph : list R) pr ax log
    (Nphase : Z) :
  length am <> 1%nat -> length pk <> 1%nat -> length wd <> 1%nat ->
  ~ (length pk = length am /\ length wd = length am) ->
  let w := World (gauss (PArr pk) (PArr wd) (PArr am) pr ax) log in
  calc_profile ph w = (Raise ValueError, w)
  /\ init_profile Nphase w = (Raise ValueError, w).
Proof.
  intros Ha Hp Hw Hne w.
  assert (forall ph', calc_profile ph' w = (Raise ValueError, w)) as Hcalc.
  { intros ph'. subst w. rewrite calc_profile_broadcast.
    destruct (bdim (length pk) (length wd)) as [k|] eqn:Hk; [| reflexivity].
    destruct (bdim (length am) k) as [r|] eqn:Hr; [| reflexivity].
    exfalso. apply Hne. axes. }
  split; [apply Hcalc |].
  rewrite init_profile_run by reflexivity. by rewrite Hcalc.
Qed.

Lemma mismatched_lengths_raise_witness :
  let am := [1; 0.5] in
  let pk := [0.2; 0.5; 0.7] in
  let wd := [0.05; 0.05] in
  length am <> 1%nat /\ length pk <> 1%nat /\ length wd <> 1%nat
  /\ ~ (length pk = length am /\ length wd = length am)
  /\ (let w := World (gauss (PArr pk) (PArr wd) (PArr am) None None) [] in
      calc_profile [0.2] w = (Raise ValueError, w)
      /\ init_profile 256 w = (Raise ValueError, w)).
Proof.
  intros am pk wd.
  assert (length am <> 1%nat) as Ha by (simpl; lia).
  assert (length pk <> 1%nat) as Hp by (simpl; lia).
  assert (length wd <> 1%nat) as Hw by (simpl; lia).
  assert (~ (length pk = length am /\ length wd = length am)) as Hne
    by (simpl; lia).
  split; [exact Ha |]. split; [exact Hp |]. split; [exact Hw |].
  split; [exact Hne |].
  exact (mismatched_lengths_raise am pk wd [0.2] None None [] 256
           Ha Hp Hw Hne).
Defined.

(** X5.  An array of length 1 is shared by all components: when each of
    the three arrays has length [N] or length 1, and one of them has
    length [N], [calc_profile] works on the [N x M] matrix whose row [i]
    takes element [i] of an array of length [N] and the one element of an
    array of length 1. *)
Theorem length_one_is_shared (N : nat) (am pk wd ph : list R) pr ax log :
  (length am = N \/ length am = 1%nat) ->
  (length pk = N \/ length pk = 1%nat) ->
  (length wd = N \/ length wd = 1%nat) ->
  (length am = N \/ length pk = N \/ length wd = N) ->
  let w := World (gauss (PArr pk) (PArr wd) (PArr am) pr ax) log in
  let raw := broadcast_matrix N am pk wd ph in
  shape raw = [N; length ph]
  /\ calc_profile ph w
     = (A ← divisor ax raw; Ok (nd_map (fun v => v / A) raw), w).
Proof.
  intros Ha Hp Hw HN w raw. split.
  { subst raw. unfold broadcast_matrix. simpl. by rewrite nrows_build. }
  subst w raw. rewrite calc_profile_broadcast.
  assert (exists k, bdim (length pk) (length wd) = Some k
                    /\ bdim (length am) k = Some N) as (k & Hk & Hr).
  { destruct (bdim (length pk) (length wd)) as [k|] eqn:Hk.
    - exists k. split; [reflexivity |]. axes.
    - exfalso. axes. }
  by rewrite Hk, Hr.
Qed.

Lemma length_one_is_shared_witness :
  let am := [1; 0.5] in
  let pk := [0.2; 0.7] in
  let wd := [0.05] in
  (length am = 2%nat \/ length am = 1%nat)
  /\ (length pk = 2%nat \/ length pk = 1%nat)
  /\ (length wd = 2%nat \/ length wd = 1%nat)
  /\ (length am = 2%nat \/ length pk = 2%nat \/ length wd = 2%nat)
  /\ (let w := World (gauss (PArr pk) (PArr wd) (PArr am) None (Some 1)) [] in
      let raw := broadcast_matrix 2 am pk wd [0.2; 0.7] in
      shape raw = [2%nat; length [0.2; 0.7]]
      /\ calc_profile [0.2; 0.7] w
         = (A ← divisor (Some 1) raw; Ok (nd_map (fun v => v / A) raw), w)).
Proof.
  intros am pk wd.
  split; [by left |]. split; [by left |]. split; [by right |].
  split; [by left |].
  apply (length_one_is_shared 2 am pk wd [0.2; 0.7] None (Some 1) []);
    [by left | by left | by right | by left].
Defined.



End LengthProperties.

(** ** Parameters that are not arrays *)




(** ** No phases *)

Section NoPhases.
Local Open Scope R_scope.

Lemma elements_build_no_columns (r : nat) (g : nat -> nat -> R) :
  elements (Arr2 (build r 0 g)) = [].
Proof.
  destruct (elements (Arr2 (build r 0 g))) as [|x xs] eqn:He; [reflexivity |].
  assert (In x (elements (Arr2 (build r 0 g)))) as Hin
    by (rewrite He; by left).
  apply In_elements_build in Hin as (i & j & _ & Hj & _). lia.
Qed.

Lemma grid_nonpositive (Nphase : Z) : (Nphase <= 0)%Z -> grid Nphase = [].
Proof.
  intros Hn. unfold grid, arange.
  replace (Z.to_nat Nphase) with 0%nat by lia. reflexivity.
Qed.

(** X8.  An empty phase sequence on arrays of one length: without a
    cached [Amax] there is no maximum to take and [calc_profile] raises
    [ValueError]; with one it returns the array of shape [(N, 0)]. *)
Theorem no_phases (am pk wd : list R) pr log :
  length pk = length am -> length wd = length am ->
  (let w := World (gauss (PArr pk) (PArr wd) (PArr am) pr None) log in
   calc_profile [] w = (Raise ValueError, w))
  /\ (forall A : R,
        let w := World (gauss (PArr pk) (PArr wd) (PArr am) pr (Some A)) log in
        exists a, calc_profile [] w = (Ok a, w)
                  /\ shape a = [length am; 0%nat] /\ elements a = []).
Proof.
  intros Hpk Hwd. split.
  - intros w. subst w.
    rewrite (calc_profile_arrays am pk wd [] pr None log Hpk Hwd).
    unfold divisor, amax, component_matrix.
    by rewrite elements_build_no_columns.
  - intros A w. subst w.
    rewrite (calc_profile_arrays am pk wd [] pr (Some A) log Hpk Hwd).
    eexists. split; [reflexivity |]. unfold component_matrix.
    rewrite nd_map_build. split.
    + simpl. by rewrite nrows_build.
    + apply elements_build_no_columns.
Qed.

Lemma no_phases_witness :
  let am := [1; 0.5] in
  let pk := [0.2; 0.7] in
  let wd := [0.05; 0.05] in
  length pk = length am /\ length wd = length am
  /\ (let w := World (gauss (PArr pk) (PArr wd) (PArr am) None None) [] in
      calc_profile [] w = (Raise ValueError, w))
  /\ (forall A : R,
        let w := World (gauss (PArr pk) (PArr wd) (PArr am) None (Some A)) [] in
        exists a, calc_profile [] w = (Ok a, w)
                  /\ shape a = [length am; 0%nat] /\ elements a = []).
Proof.
  intros am pk wd. split; [reflexivity |]. split; [reflexivity |].
  apply (no_phases am pk wd None []); reflexivity.
Defined.

(** X9.  [init_profile(Nphase)] with [Nphase <= 0] builds an empty grid
    and raises [ValueError].  On an instance without a cached [Amax] the
    world stays as it was; on one with a cached [Amax] the evaluator has
    returned by then, so the cached profile has been replaced by an array
    without elements, next to the old [Amax]. *)
Theorem no_phase_bins (am pk wd : list R) pr log (Nphase : Z) :
  (Nphase <= 0)%Z ->
  length pk = length am -> length wd = length am ->
  (let w := World (gauss (PArr pk) (PArr wd) (PArr am) pr None) log in
   init_profile Nphase w = (Raise ValueError, w))
  /\ (forall A : R,
        let w := World (gauss (PArr pk) (PArr wd) (PArr am) pr (Some A)) log in
        exists a,
          init_profile Nphase w
          = (Raise ValueError,
             World (gauss (PArr pk) (PArr wd) (PArr am) (Some a) (Some A)) log)
          /\ shape a = [length am; 0%nat] /\ elements a = []).
Proof.
  intros Hn Hpk Hwd. split.
  - intros w. rewrite init_profile_run by reflexivity.
    rewrite (grid_nonpositive Nphase Hn). subst w.
    rewrite (calc_profile_arrays am pk wd [] pr None log Hpk Hwd).
    unfold divisor, amax, component_matrix.
    by rewrite elements_build_no_columns.
  - intros A w. eexists.
    rewrite init_profile_run by reflexivity.
    rewrite (grid_nonpositive Nphase Hn). subst w.
    rewrite (calc_profile_arrays am pk wd [] pr (Some A) log Hpk Hwd).
    unfold divisor, mbind, outcome_bind. cbn [fst].
    unfold component_matrix. rewrite nd_map_build.
    unfold amax. rewrite elements_build_no_columns.
    split; [reflexivity |]. split.
    + simpl. by rewrite nrows_build.
    + apply elements_build_no_columns.
Qed.

Lemma no_phase_bins_witness :
  let am := [1; 0.5] in
  let pk := [0.2; 0.7] in
  let wd := [0.05; 0.05] in
  (0 <= 0)%Z /\ length pk = length am /\ length wd = length am
  /\ (let w := World (gauss (PArr pk) (PArr wd) (PArr am) None None) [] in
      init_profile 0 w = (Raise ValueError, w))
  /\ (forall A : R,
        let w := World (gauss (PArr pk) (PArr wd) (PArr am) None (Some A)) [] in
        exists a,
          init_profile 0 w
          = (Raise ValueError,
             World (gauss (PArr pk) (PArr wd) (PArr am) (Some a) (Some A)) [])
          /\ shape a = [length am; 0%nat] /\ elements a = []).
Proof.
  intros am pk wd.
  split; [lia |]. split; [reflexivity |]. split; [reflexivity |].
  apply (no_phase_bins am pk wd None [] 0); [lia | reflexivity | reflexivity].
Defined.

End NoPhases.

(** ** Values *)

Section Values.
Local Open Scope R_scope.

Lemma gaussian_nonneg (a p w x : R) : 0 <= a -> 0 <= gaussian a p w x.
Proof.
  intros Ha. unfold gaussian.
  pose proof (exp_pos (-0.5 * ((x - p) / w) ^ 2)). nra.
Qed.

(** X10.  One component, given as arrays, asked at its own peak: the
    kernel is 1 there, so with a cached [Amax] the result is [amp / Amax],
    and without one it is [amp / amp = 1].  The width, the amplitude and
    the cached [Amax] are not zero, so that no division is one by zero. *)
Theorem value_at_peak (a p w A : R) pr log :
  a <> 0 -> w <> 0 -> A <> 0 ->
  (let g := gauss (PArr [p]) (PArr [w]) (PArr [a]) pr (Some A) in
   calc_profile [p] (World g log)
   = (Ok (Arr2 (Mat 1 [[a / A]])), World g log))
  /\ (let g := gauss (PArr [p]) (PArr [w]) (PArr [a]) pr None in
      calc_profile [p] (World g log)
      = (Ok (Arr2 (Mat 1 [[1]])), World g log)).
Proof.
  intros Ha Hw HA.
  assert (component_matrix [a] [p] [w] [p] = Arr2 (Mat 1 [[a]])) as Hraw.
  { unfold component_matrix, build. simpl. by rewrite gaussian_at_peak. }
  split.
  - intros g. subst g.
    rewrite (calc_profile_arrays [a] [p] [w] [p] pr (Some A) log eq_refl eq_refl).
    by rewrite Hraw.
  - intros g. subst g.
    rewrite (calc_profile_arrays [a] [p] [w] [p] pr None log eq_refl eq_refl).
    rewrite Hraw. simpl. do 6 f_equal. by field.
Qed.

Lemma value_at_peak_witness :
  2 <> 0 /\ 0.05 <> 0 /\ 4 <> 0
  /\ (let g := gauss (PArr [0.5]) (PArr [0.05]) (PArr [2]) None (Some 4) in
      calc_profile [0.5] (World g [])
      = (Ok (Arr2 (Mat 1 [[2 / 4]])), World g []))
  /\ (let g := gauss (PArr [0.5]) (PArr [0.05]) (PArr [2]) None None in
      calc_profile [0.5] (World g [])
      = (Ok (Arr2 (Mat 1 [[1]])), World g [])).
Proof.
  assert (2 <> 0) as Ha by lra.
  assert (0.05 <> 0) as Hw by lra.
  assert (4 <> 0) as HA by lra.
  split; [exact Ha |]. split; [exact Hw |]. split; [exact HA |].
  exact (value_at_peak 2 0.5 0.05 4 None [] Ha Hw HA).
Defined.

(** X11.  Without a cached [Amax], with arrays of one length, amplitudes
    that are not negative and a positive maximum [A] of the component
    matrix over the phases asked, [calc_profile] returns an array all of
    whose elements lie between 0 and 1. *)
Theorem fresh_profile_in_unit_interval (am pk wd ph : list R) pr log (A : R) :
  length pk = length am -> length wd = length am ->
  Forall (fun a => 0 <= a) am ->
  amax (component_matrix am pk wd ph) = Ok A -> 0 < A ->
  let w := World (gauss (PArr pk) (PArr wd) (PArr am) pr None) log in
  exists a, calc_profile ph w = (Ok a, w)
            /\ forall x, In x (elements a) -> 0 <= x <= 1.
Proof.
  intros Hpk Hwd Hnn HA Hpos w. subst w.
  rewrite (calc_profile_arrays am pk wd ph pr None log Hpk Hwd).
  simpl divisor. rewrite HA. eexists. split; [reflexivity |].
  intros x Hx. rewrite elements_nd_map in Hx.
  apply in_map_iff in Hx as (y & <- & Hy).
  apply amax_Ok in HA as [_ Hub]. specialize (Hub y Hy).
  unfold component_matrix in Hy.
  apply In_elements_build in Hy as (i & j & Hi & _ & ->).
  assert (0 <= nth i am 0) as Hai.
  { rewrite Forall_forall in Hnn. apply Hnn. apply list_elem_of_In.
    by apply nth_In. }
  pose proof (gaussian_nonneg (nth i am 0) (nth i pk 0) (nth i wd 0)
                (nth j ph 0) Hai) as Hg.
  split.
  - apply Rmult_le_pos; [exact Hg |]. left. by apply Rinv_0_lt_compat.
  - apply (Rmult_le_reg_r A); [exact Hpos |]. unfold Rdiv.
    rewrite Rmult_assoc, Rinv_l by lra. lra.
Qed.

Lemma fresh_profile_in_unit_interval_witness :
  let w := World (gauss (PArr [0.5]) (PArr [0.05]) (PArr [2]) None None) [] in
  length [0.5] = length [2] /\ length [0.05] = length [2]
  /\ Forall (fun a => 0 <= a) [2]
  /\ amax (component_matrix [2] [0.5] [0.05] (grid 256)) = Ok 2 /\ 0 < 2
  /\ exists a, calc_profile (grid 256) w = (Ok a, w)
               /\ forall x, In x (elements a) -> 0 <= x <= 1.
Proof.
  intros w.
  assert (Forall (fun a => 0 <= a) [2]) as Hnn.
  { constructor; [lra | constructor]. }
  assert (0 < 2) as Hpos by lra.
  split; [reflexivity |]. split; [reflexivity |]. split; [exact Hnn |].
  split; [exact one_component_raw_max |]. split; [exact Hpos |].
  exact (fresh_profile_in_unit_interval [2] [0.5] [0.05] (grid 256) None [] 2
           eq_refl eq_refl Hnn one_component_raw_max Hpos).
Defined.

End Values.

(** ** Calling [init_profile] again and again *)

Section Repeated.
Local Open Scope R_scope.

Variables (am pk wd : list R) (log : list string) (Nphase : Z) (A : R).
Hypothesis Hpk : length pk = length am.
Hypothesis Hwd : length wd = length am.

Let raw := component_matrix am pk wd (grid Nphase).
Let state (pr : option ndarray) (ax : option R) : world :=
  World (gauss (PArr pk) (PArr wd) (PArr am) pr ax) log.
Let normalised := nd_map (fun v => v / A) raw.

Hypothesis HA : amax raw = Ok A.
Hypothesis Hpos : 0 < A.

(** From no cached [Amax], and from a cached [A], to a cached 1. *)
Lemma init_profile_to_one (pr : option ndarray) (ax : option R) :
  ax = None \/ ax = Some A ->
  init_profile Nphase (state pr ax) = (Ok tt, state (Some normalised) (Some 1)).
Proof.
  intros Hax. unfold state.
  rewrite (init_profile_arrays am pk wd pr ax log Nphase A 1 Hpk Hwd).
  - fold raw. do 4 f_equal. rewrite nd_map_nd_map. apply nd_map_ext.
    intros v. field. lra.
  - fold raw. destruct Hax as [-> | ->]; [exact HA | reflexivity].
  - fold raw. by apply amax_self_normalised.
Qed.

(** From a cached 1 to a cached [A]. *)
Lemma init_profile_to_raw_max (pr : option ndarray) :
  init_profile Nphase (state pr (Some 1))
  = (Ok tt, state (Some normalised) (Some A)).
Proof.
  unfold state.
  rewrite (init_profile_arrays am pk wd pr (Some 1) log Nphase 1 A Hpk Hwd).
  - fold raw. do 4 f_equal. rewrite nd_map_nd_map. apply nd_map_ext.
    intros v. field. lra.
  - reflexivity.
  - fold raw. rewrite (amax_nd_map (fun v => v / 1) raw A).
    + f_equal. lra.
    + apply div_monotone. lra.
    + exact HA.
Qed.

Lemma init_profile_times_from_cached (n : nat) (pr : option ndarray)
    (one : bool) :
  init_profile_times (S n) Nphase (state pr (Some (if one then 1 else A)))
  = (Ok tt,
     state (Some normalised)
       (Some (if xorb one (Nat.even n) then 1 else A))).
Proof.
  revert pr one. induction n as [|n IH]; intros pr one.
  - destruct one; cbn [init_profile_times].
    + erewrite bind_ok by apply init_profile_to_raw_max. reflexivity.
    + erewrite bind_ok by (apply init_profile_to_one; by right). reflexivity.
  - change (init_profile_times (S (S n)) Nphase)
      with (init_profile Nphase;; init_profile_times (S n) Nphase).
    rewrite Nat.even_succ, <- Nat.negb_even.
    destruct one.
    + erewrite bind_ok by apply init_profile_to_raw_max.
      rewrite (IH (Some normalised) false). by destruct (Nat.even n).
    + erewrite bind_ok by (apply init_profile_to_one; by right).
      rewrite (IH (Some normalised) true). by destruct (Nat.even n).
Qed.

(** X12.  Array parameters of one length whose component matrix over the
    grid has a positive maximum [A], on an instance without a cached
    [Amax]: any number of calls of [init_profile] in a row return.  After
    each the cached profile is the component matrix over [A], and the
    cached [Amax] is 1 after the first, third, fifth call and [A] after
    the second, fourth, sixth. *)
Theorem init_profile_alternates (n : nat) (pr : option ndarray) :
  init_profile_times (S n) Nphase (state pr None)
  = (Ok tt,
     state (Some normalised) (Some (if Nat.even n then 1 else A))).
Proof.
  destruct n as [|n].
  - cbn [init_profile_times].
    erewrite bind_ok by (apply init_profile_to_one; by left). reflexivity.
  - change (init_profile_times (S (S n)) Nphase)
      with (init_profile Nphase;; init_profile_times (S n) Nphase).
    erewrite bind_ok by (apply init_profile_to_one; by left).
    rewrite (init_profile_times_from_cached n (Some normalised) true).
    rewrite Nat.even_succ, <- Nat.negb_even.
    by destruct (Nat.even n).
Qed.

End Repeated.

Lemma init_profile_alternates_witness :
  length [0.5%R] = length [2%R] /\ length [0.05%R] = length [2%R]
  /\ amax (component_matrix [2%R] [0.5%R] [0.05%R] (grid 256)) = Ok 2%R
  /\ (0 < 2)%R
  /\ init_profile_times 3 256
       (World (gauss (PArr [0.5%R]) (PArr [0.05%R]) (PArr [2%R]) None None) [])
     = (Ok tt,
        World (gauss (PArr [0.5%R]) (PArr [0.05%R]) (PArr [2%R])
                 (Some (nd_map (fun v => (v / 2)%R)
                          (component_matrix [2%R] [0.5%R] [0.05%R] (grid 256))))
                 (Some 1%R)) []).
Proof.
  assert (0 < 2)%R as Hpos by lra.
  split; [reflexivity |]. split; [reflexivity |].
  split; [exact one_component_raw_max |]. split; [exact Hpos |].
  exact (init_profile_alternates [2%R] [0.5%R] [0.05%R] [] 256 2%R
           eq_refl eq_refl one_component_raw_max Hpos 2 None).
Defined.

(** ** Construction and the accessors *)

(** X13.  After [GaussPortrait(peak, width, amp)], each argument given or
    left to its default 0.5, 0.05 and 1, the accessors [peak], [width] and
    [amp] return what the constructor was given; [profile] returns [None];
    [Amax] raises [AttributeError], and [hasattr(self, '_Amax')] is false. *)
Theorem accessors_after_construction (pk0 wd0 am0 : option param)
    (log : list string) :
  let w := World (GaussPortrait_new pk0 wd0 am0) log in
  peak w = (Ok (default (PNum 0.5) pk0), w)
  /\ width w = (Ok (default (PNum 0.05) wd0), w)
  /\ amp w = (Ok (default (PNum 1) am0), w)
  /\ profile w = (Ok None, w)
  /\ Amax w = (Raise AttributeError, w)
  /\ hasattr "_Amax" w = (Ok false, w).
Proof.
  intros w.
  assert (ob_type (self w) = GaussPortrait_cls) as Hc by reflexivity.
  unfold peak, width, amp, profile, Amax.
  rewrite !(property_gauss _ _ w Hc) by (simpl; set_solver).
  repeat split.
Qed.

(** ** The names of the module *)

(** X14.  After the class statements of the module have run, its three
    names are bound to [PulsePortrait], to the 2-D [GaussPortrait] and to
    [UserPortrait]: no name of the module is left for the 1-D
    [GaussPortrait]. *)
Theorem module_has_no_name_for_1D_class :
  module_namespace !! "PulsePortrait" = Some PulsePortrait_def
  /\ module_namespace !! "GaussPortrait" = Some GaussPortrait_2D_def
  /\ module_namespace !! "UserPortrait" = Some UserPortrait_def
  /\ (forall name : string,
        module_namespace !! name <> Some GaussPortrait_1D_def).
Proof.
  split; [reflexivity |]. split; [reflexivity |]. split; [reflexivity |].
  intros name. unfold module_namespace.
  destruct (decide (name = "UserPortrait")) as [-> | H1]; [discriminate |].
  rewrite lookup_insert_ne by congruence.
  destruct (decide (name = "GaussPortrait")) as [-> | H2]; [discriminate |].
  rewrite !lookup_insert_ne by congruence.
  destruct (decide (name = "PulsePortrait")) as [-> | H3]; [discriminate |].
  rewrite lookup_insert_ne by congruence. by rewrite lookup_empty.
Qed.
